(** * A shallow embedding of the workflow engine (app/engine.py, app/model.py)

    Python dictionaries are finite maps ([gmap]) with string keys, Python
    integers are [Z], exceptions are explicit results, and the mutable
    engine object is threaded through every operation. *)

From Stdlib Require Import ZArith.
From stdpp Require Import gmap strings list fin_maps pretty.

Local Open Scope string_scope.
Local Open Scope list_scope.

(** ** Exceptions and results *)

(** What Python code can raise.  [EngineError message] is the engine's own
    exception class, built from a [str]; [OtherException message] is an
    instance of any other subclass of [Exception] whose [str(e)] is
    [message].  [Unprintable engine_error raised] is an instance of a
    subclass of [Exception] (of [EngineError] when [engine_error] holds)
    whose [__str__] raises [raised].  [BaseOnly] is a [BaseException] that is
    not an [Exception] ([KeyboardInterrupt], [SystemExit], [GeneratorExit]). *)
Inductive Exception :=
| EngineError (message : string)
| OtherException (message : string)
| Unprintable (engine_error : bool) (raised : Exception)
| BaseOnly (description : string).

(** The result of a Python call: a returned value or a raised exception. *)
Inductive Outcome (A : Type) :=
| Returns (a : A)
| Raises (e : Exception).
Arguments Returns {A} a.
Arguments Raises {A} e.

(** [isinstance(e, Exception)]: what [except Exception] catches. *)
Definition is_exception (e : Exception) : bool :=
  match e with
  | BaseOnly _ => false
  | _ => true
  end.

(** [isinstance(e, EngineError)]: what [except EngineError] catches. *)
Definition is_engine_error (e : Exception) : bool :=
  match e with
  | EngineError _ => true
  | Unprintable engine_error _ => engine_error
  | _ => false
  end.

(** [str(e)], which runs the exception's [__str__] and so can raise. *)
Definition str_of_exception (e : Exception) : Outcome string :=
  match e with
  | EngineError message => Returns message
  | OtherException message => Returns message
  | Unprintable _ raised => Raises raised
  | BaseOnly description => Returns description
  end.

(** [str(n)] for an [int].  CPython (3.11, default settings) refuses to
    convert an integer of more than 4300 decimal digits and raises
    [ValueError]. *)
Definition int_max_str_digits : nat := 4300.

Definition py_int_str (n : Z) : Outcome string :=
  if bool_decide (String.length (pretty (Z.abs n)) ≤ int_max_str_digits)%nat then
    Returns (pretty n)
  else
    Raises (OtherException
              ("Exceeds the limit (4300 digits) for integer string conversion; "
               +:+ "use sys.set_int_max_str_digits() to increase the limit")).

(** ** app/model.py *)

Abbreviation NodeName := string (only parsing).
Abbreviation GraphId := string (only parsing).
Abbreviation RunId := string (only parsing).

(** The values of [Dict[str, Any]] that the engine tells apart: [None], a
    [bool], and everything else, which it only passes to [str()].  [VObject]
    is any other object, given by what [str()] does on it. *)
Inductive Value :=
| VNone
| VBool (b : bool)
| VInt (n : Z)
| VStr (s : string)
| VObject (str_result : Outcome string).

(** [State = Dict[str, Any]] *)
Abbreviation State := (gmap string Value) (only parsing).

(** Python's [str(v)]. *)
Definition py_str (v : Value) : Outcome string :=
  match v with
  | VNone => Returns "None"
  | VBool b => Returns (if b then "True" else "False")
  | VInt n => py_int_str n
  | VStr s => Returns s
  | VObject str_result => str_result
  end.

(** [Dict[NodeName, Optional[NodeName]]]: a key may be absent, or present and
    mapped to [None]. *)
Abbreviation EdgeMap := (gmap string (option string)) (only parsing).

Module GraphCreateRequest.
Record t := mk {
    name : string;
    entry_node : NodeName;
    nodes : list NodeName;
    edges : EdgeMap;
    conditional_edges : option (gmap string EdgeMap);
  }.
End GraphCreateRequest.

Module Graph.
Record t := mk {
    id : GraphId;
    name : string;
    entry_node : NodeName;
    nodes : list NodeName;
    edges : EdgeMap;
    conditional_edges : gmap string EdgeMap;
  }.
End Graph.

Inductive RunStatus := pending | running | completed | failed.

Module Run.
Record t := mk {
    id : RunId;
    graph_id : GraphId;
    status : RunStatus;
    state : State;
    execution_log : list NodeName;
    error : option string;
  }.

Definition set_status (v : RunStatus) (r : t) : t :=
    mk (id r) (graph_id r) v (state r) (execution_log r) (error r).
Definition set_state (v : State) (r : t) : t :=
    mk (id r) (graph_id r) (status r) v (execution_log r) (error r).
Definition set_execution_log (v : list NodeName) (r : t) : t :=
    mk (id r) (graph_id r) (status r) (state r) v (error r).
Definition set_error (v : option string) (r : t) : t :=
    mk (id r) (graph_id r) (status r) (state r) (execution_log r) v.
End Run.

Module GraphRunResponse.
Record t := mk {
    run_id : RunId;
    final_state : State;
    execution_log : list NodeName;
    status : RunStatus;
  }.
End GraphRunResponse.

(** ** Node capabilities (app/registry.py)

    A registered function receives the run's live state dictionary.  Its
    effect is the dictionary as it stands after the call (mutated in place)
    together with what the call produced: a returned [dict], any other
    returned value, or a raised exception. *)
Inductive NodeResult :=
| ReturnsDict (d : State)
| ReturnsOther
| NodeRaises (e : Exception).

Abbreviation NodeFn := (State -> State * NodeResult) (only parsing).

(** ** app/engine.py *)

Record WorkflowEngine := mkEngine {
  node_registry : gmap string NodeFn;
  graphs : gmap string Graph.t;
  runs : gmap string Run.t;
}.

(** [WorkflowEngine.__init__] with an injected registry. *)
Definition init (registry : gmap string NodeFn) : WorkflowEngine :=
  mkEngine registry ∅ ∅.

(** [create_graph].  [repr_names] is Python's built-in [repr] on a list of
    [str] (used by the f-string), and [uuid_hex] is the value of
    [uuid4().hex] drawn by the [Graph] constructor. *)
Definition create_graph (repr_names : list NodeName -> string)
    (self : WorkflowEngine) (payload : GraphCreateRequest.t)
    (uuid_hex : string) : WorkflowEngine * Outcome Graph.t :=
  let missing :=
    filter (λ n, node_registry self !! n = None) (GraphCreateRequest.nodes payload) in
  match missing with
  | _ :: _ =>
      (self, Raises (EngineError ("Nodes not found in registry: " +:+ repr_names missing)))
  | [] =>
      let conditional_edges :=
        default ∅ (GraphCreateRequest.conditional_edges payload) in
      let graph_obj :=
        Graph.mk ("graph_" +:+ uuid_hex)
                 (GraphCreateRequest.name payload)
                 (GraphCreateRequest.entry_node payload)
                 (GraphCreateRequest.nodes payload)
                 (GraphCreateRequest.edges payload)
                 conditional_edges in
      if bool_decide (Graph.entry_node graph_obj ∈ Graph.nodes graph_obj) then
        (mkEngine (node_registry self)
                  (<[Graph.id graph_obj := graph_obj]> (graphs self))
                  (runs self),
         Returns graph_obj)
      else
        (self, Raises (EngineError ("entry_node '" +:+ Graph.entry_node graph_obj
                                      +:+ "' is not listed in nodes")))
  end.

Definition get_graph (self : WorkflowEngine) (graph_id : GraphId) : Outcome Graph.t :=
  match graphs self !! graph_id with
  | None => Raises (EngineError ("Graph not found: " +:+ graph_id))
  | Some g => Returns g
  end.

Definition get_run (self : WorkflowEngine) (run_id : RunId) : Outcome Run.t :=
  match runs self !! run_id with
  | None => Raises (EngineError ("Run not found: " +:+ run_id))
  | Some r => Returns r
  end.

(** *** The executor: [run_graph]

    [d.get(k)] on a dictionary with optional values: [None] both when the key
    is absent and when it is mapped to [None]. *)
Definition dict_get (d : EdgeMap) (k : string) : option NodeName :=
  mjoin (d !! k).

(** Lines 114-129: the lookup key of a conditional node, from the value the
    state holds under the node's own name. *)
Definition decision_key (current_node : NodeName) (cond_map : EdgeMap)
    (cond_value : Value) : Outcome string :=
  match cond_value with
  | VBool b => Returns (if b then "true" else "false")
  | VNone =>
      if bool_decide (is_Some (cond_map !! "default")) then Returns "default"
      else Raises (EngineError ("Conditional node '" +:+ current_node
                                  +:+ "' did not set state['" +:+ current_node
                                  +:+ "']; cannot decide next node"))
  | _ => py_str cond_value
  end.

(** Lines 112-137: the successor of a conditional node. *)
Definition conditional_next (current_node : NodeName) (cond_map : EdgeMap)
    (state : State) : Outcome (option NodeName) :=
  let cond_value := default VNone (state !! current_node) in
  match decision_key current_node cond_map cond_value with
  | Raises e => Raises e
  | Returns key =>
      let next_node := dict_get cond_map key in
      let next_node :=
        if bool_decide (next_node = None ∧ is_Some (cond_map !! "default"))
        then dict_get cond_map "default"
        else next_node in
      Returns next_node
  end.

(** Lines 105-107: the call of the node function.  The first component is
    the dictionary [run.state] refers to afterwards: the returned one when the
    function returns a [dict], the one passed in (as mutated in place)
    otherwise, also when the function raises. *)
Definition call_node (node_fn : NodeFn) (state : State) : State * Outcome unit :=
  match node_fn state with
  | (_, ReturnsDict d) => (d, Returns tt)
  | (mutated, ReturnsOther) => (mutated, Returns tt)
  | (mutated, NodeRaises e) => (mutated, Raises e)
  end.

(** Line 94: what the iteration raises when the counter has passed the
    limit: the engine's error carrying the limit, or the exception of the
    f-string when the limit cannot be converted to text. *)
Definition limit_exceeded (max_iterations : Z) : Exception :=
  match py_int_str max_iterations with
  | Returns digits =>
      EngineError ("Max iterations (" +:+ digits
                     +:+ ") exceeded; possible infinite loop")
  | Raises e => e
  end.

(** Lines 92-143: one iteration of the [while] loop at [current_node].  The
    run object is returned as the iteration left it, together with either the
    next values of [current_node] and [iter_count] or the exception raised. *)
Definition loop_body (self : WorkflowEngine) (graph : Graph.t) (max_iterations : Z)
    (run : Run.t) (current_node : NodeName) (iter_count : Z)
    : Run.t * Outcome (option NodeName * Z) :=
  let iter_count := (iter_count + 1)%Z in
  if bool_decide (iter_count > max_iterations)%Z then
    (run, Raises (limit_exceeded max_iterations))
  else
    let run := Run.set_execution_log (Run.execution_log run ++ [current_node]) run in
    match node_registry self !! current_node with
    | None =>
        (run, Raises (EngineError ("Node function not found in registry: "
                                     +:+ current_node)))
    | Some node_fn =>
        match call_node node_fn (Run.state run) with
        | (state, Raises e) => (Run.set_state state run, Raises e)
        | (state, Returns _) =>
            let run := Run.set_state state run in
            match Graph.conditional_edges graph !! current_node with
            | Some cond_map =>
                match conditional_next current_node cond_map (Run.state run) with
                | Raises e => (run, Raises e)
                | Returns next_node => (run, Returns (next_node, iter_count))
                end
            | None =>
                (run, Returns (dict_get (Graph.edges graph) current_node, iter_count))
            end
        end
    end.

(** Lines 91-143: the [while current_node is not None] loop.  [fuel] bounds the
    number of iterations the model unrolls; [None] means it was used up. *)
Fixpoint run_loop (fuel : nat) (self : WorkflowEngine) (graph : Graph.t)
    (max_iterations : Z) (run : Run.t) (current_node : option NodeName)
    (iter_count : Z) : option (Run.t * Outcome unit) :=
  match current_node with
  | None => Some (run, Returns tt)
  | Some node =>
      match fuel with
      | O => None
      | S fuel =>
          match loop_body self graph max_iterations run node iter_count with
          | (run, Raises e) => Some (run, Raises e)
          | (run, Returns (next_node, iter_count)) =>
              run_loop fuel self graph max_iterations run next_node iter_count
          end
      end
  end.

(** The run object [run_graph] creates (line 84). *)
Definition new_run (graph : Graph.t) (initial_state : State) (uuid_hex : string) : Run.t :=
  Run.mk ("run_" +:+ uuid_hex) (Graph.id graph) running initial_state [] None.

Definition response_of (run : Run.t) : GraphRunResponse.t :=
  GraphRunResponse.mk (Run.id run) (Run.state run) (Run.execution_log run)
                      (Run.status run).

Definition store_run (self : WorkflowEngine) (run : Run.t) : WorkflowEngine :=
  mkEngine (node_registry self) (graphs self) (<[Run.id run := run]> (runs self)).

(** [run_graph].  [uuid_hex] is the [uuid4().hex] drawn by the [Run]
    constructor.  The run object is stored in [self.runs] before the loop and
    mutated through the same reference, so the store holds its final value
    when the call returns or raises.  The loop is unrolled at most
    [max_iterations + 1] times: the counter passes the limit by then.
    [except Exception] catches what [is_exception] accepts; in the handler
    [run.status] is set before [str(e)] is evaluated, and an exception raised
    by [str(e)] leaves [run_graph]. *)
Definition run_graph (self : WorkflowEngine) (graph_id : GraphId)
    (initial_state : State) (max_iterations : Z) (uuid_hex : string)
    : option (WorkflowEngine * Outcome GraphRunResponse.t) :=
  match get_graph self graph_id with
  | Raises e => Some (self, Raises e)
  | Returns graph =>
      let run := new_run graph initial_state uuid_hex in
      match run_loop (S (Z.to_nat max_iterations)) self graph max_iterations run
                     (Some (Graph.entry_node graph)) 0 with
      | None => None
      | Some (run, Returns _) =>
          let run := Run.set_status completed run in
          Some (store_run self run, Returns (response_of run))
      | Some (run, Raises e) =>
          if is_exception e then
            let run := Run.set_status failed run in
            match str_of_exception e with
            | Raises e' => Some (store_run self run, Raises e')
            | Returns message =>
                let run := Run.set_error (Some message) run in
                Some (store_run self run, Returns (response_of run))
            end
          else Some (store_run self run, Raises e)
      end
  end.

(** ** The course of a run

    [iterations k] is the loop after [k] iterations that all ended normally:
    the run object, the node the loop is about to execute ([None] when the
    loop has finished) and the counter.  It is [None] when the loop ends or
    raises before that. *)
Fixpoint iterations (k : nat) (self : WorkflowEngine) (graph : Graph.t)
    (max_iterations : Z) (run : Run.t) (current_node : option NodeName)
    (iter_count : Z) : option (Run.t * option NodeName * Z) :=
  match k with
  | O => Some (run, current_node, iter_count)
  | S k =>
      match current_node with
      | None => None
      | Some node =>
          match loop_body self graph max_iterations run node iter_count with
          | (_, Raises _) => None
          | (run, Returns (next_node, iter_count)) =>
              iterations k self graph max_iterations run next_node iter_count
          end
      end
  end.

(** The nodes [current_node] pointed at during the first [k] iterations. *)
Fixpoint visited (k : nat) (self : WorkflowEngine) (graph : Graph.t)
    (max_iterations : Z) (run : Run.t) (current_node : option NodeName)
    (iter_count : Z) : list NodeName :=
  match k, current_node with
  | S k, Some node =>
      node ::
      match loop_body self graph max_iterations run node iter_count with
      | (_, Raises _) => []
      | (run, Returns (next_node, iter_count)) =>
          visited k self graph max_iterations run next_node iter_count
      end
  | _, _ => []
  end.

(** [arrives self graph max_iterations initial_state uuid_hex k run node i]:
    a run of [graph] from [initial_state] is about to execute [node] in its
    iteration number [k + 1], with run object [run] and counter [i]. *)
Definition arrives (self : WorkflowEngine) (graph : Graph.t) (max_iterations : Z)
    (initial_state : State) (uuid_hex : string) (k : nat)
    (run : Run.t) (node : NodeName) (i : Z) : Prop :=
  iterations k self graph max_iterations (new_run graph initial_state uuid_hex)
             (Some (Graph.entry_node graph)) 0 = Some (run, Some node, i).

(** The nodes visited before that arrival. *)
Definition visited_before (self : WorkflowEngine) (graph : Graph.t)
    (max_iterations : Z) (initial_state : State) (uuid_hex : string) (k : nat)
    : list NodeName :=
  visited k self graph max_iterations (new_run graph initial_state uuid_hex)
          (Some (Graph.entry_node graph)) 0.

(** What a caller of [run_graph] observes when the call returns a summary with
    the given status, log and state, and the stored run carries [err]. *)
Definition run_ends (self : WorkflowEngine) (graph_id : GraphId)
    (initial_state : State) (max_iterations : Z) (uuid_hex : string)
    (st : RunStatus) (err : option string) (log : list NodeName)
    (state : State) : Prop :=
  ∃ self' resp r,
    run_graph self graph_id initial_state max_iterations uuid_hex
      = Some (self', Returns resp)
    ∧ GraphRunResponse.status resp = st
    ∧ GraphRunResponse.execution_log resp = log
    ∧ GraphRunResponse.final_state resp = state
    ∧ get_run self' (GraphRunResponse.run_id resp) = Returns r
    ∧ Run.status r = st
    ∧ Run.error r = err
    ∧ Run.execution_log r = log
    ∧ Run.state r = state.

(** The fields of the run object the loop never assigns. *)
Definition same_header (r r' : Run.t) : Prop :=
  Run.id r' = Run.id r ∧ Run.graph_id r' = Run.graph_id r
  ∧ Run.status r' = Run.status r ∧ Run.error r' = Run.error r.


(** ** Sample registries and graphs *)

Definition identity_node : NodeFn := λ st, (st, ReturnsDict st).
Definition set_key (k : string) (v : Value) : NodeFn :=
  λ st, (<[k := v]> st, ReturnsDict (<[k := v]> st)).
Definition set_key_in_place (k : string) (v : Value) : NodeFn :=
  λ st, (<[k := v]> st, ReturnsOther).
Definition idle_node : NodeFn := λ st, (st, ReturnsOther).
Definition failing_node (k : string) (msg : string) : NodeFn :=
  λ st, (<[k := VBool true]> st, NodeRaises (OtherException msg)).

Definition sample_registry : gmap string NodeFn :=
  list_to_map
    [("A", identity_node);
     ("B", set_key "done" (VBool true));
     ("check", set_key "check" (VBool false));
     ("idle", idle_node);
     ("blank", set_key "blank" VNone);
     ("flag", set_key_in_place "flag" (VBool true));
     ("pick", set_key "pick" (VStr "ok"));
     ("boom", failing_node "seen" "boom failed")].

(** A stand-in for [repr] on lists of plain names. *)
Definition repr_plain (l : list NodeName) : string :=
  "[" +:+ String.concat ", " (map (λ s, "'" +:+ s +:+ "'") l) +:+ "]".

(** The two-node scenario of the specification: [A] then [B]. *)
Definition ab_request : GraphCreateRequest.t :=
  GraphCreateRequest.mk "ab" "A" ["A"; "B"] {["A" := Some "B"]} None.
Definition ab_graph : Graph.t :=
  Graph.mk "graph_ab" "ab" "A" ["A"; "B"] {["A" := Some "B"]} ∅.

(** A request naming two unregistered nodes and an entry node it does not list. *)
Definition bad_request : GraphCreateRequest.t :=
  GraphCreateRequest.mk "bad" "Z" ["A"; "X"; "B"; "Y"] ∅ None.
(** A request with registered nodes and an entry node it does not list. *)
Definition bad_entry_request : GraphCreateRequest.t :=
  GraphCreateRequest.mk "bad_entry" "Z" ["A"; "B"] ∅ None.

(** A conditional node that always decides [False], routed back to itself. *)
Definition loop_map : gmap string (option string) :=
  {["true" := None; "false" := Some "check"]}.
Definition loop_graph : Graph.t :=
  Graph.mk "graph_loop" "loop" "check" ["check"] ∅ {["check" := loop_map]}.

(** [A] followed by a conditional node that leaves no decision. *)
Definition idle_map : gmap string (option string) := {["yes" := Some "B"]}.
Definition idle_default_map : gmap string (option string) :=
  {["yes" := Some "A"; "default" := Some "B"]}.
Definition idle_graph : Graph.t :=
  Graph.mk "graph_idle" "idle" "A" ["A"; "idle"; "B"] {["A" := Some "idle"]}
           {["idle" := idle_map]}.
Definition idle_default_graph : Graph.t :=
  Graph.mk "graph_idle_default" "idle_default" "A" ["A"; "idle"; "B"]
           {["A" := Some "idle"]} {["idle" := idle_default_map]}.

(** [A] followed by a conditional node that stores [None] as its decision. *)
Definition blank_graph : Graph.t :=
  Graph.mk "graph_blank" "blank" "A" ["A"; "blank"; "B"] {["A" := Some "blank"]}
           {["blank" := idle_map]}.
Definition blank_default_graph : Graph.t :=
  Graph.mk "graph_blank_default" "blank_default" "A" ["A"; "blank"; "B"]
           {["A" := Some "blank"]} {["blank" := idle_default_map]}.

(** A conditional node deciding [True], with other truthy keys in its map. *)
Definition flag_map : gmap string (option string) :=
  {["true" := Some "B"; "True" := Some "A"; "1" := Some "A"; "false" := None]}.
Definition flag_graph : Graph.t :=
  Graph.mk "graph_flag" "flag" "flag" ["flag"; "A"; "B"] ∅ {["flag" := flag_map]}.

(** [A] followed by a node that raises after touching the state. *)
Definition boom_graph : Graph.t :=
  Graph.mk "graph_boom" "boom" "A" ["A"; "boom"] {["A" := Some "boom"]} ∅.

(** A conditional node whose decision is mapped to [None] explicitly, in a
    map that also has a ["default"] entry. *)
Definition pick_map : gmap string (option string) :=
  {["ok" := None; "default" := Some "B"]}.
Definition pick_graph : Graph.t :=
  Graph.mk "graph_pick" "pick" "pick" ["pick"; "B"] ∅ {["pick" := pick_map]}.

Definition sample_engine : WorkflowEngine :=
  mkEngine sample_registry
    (list_to_map
       [("graph_ab", ab_graph); ("graph_loop", loop_graph);
        ("graph_idle", idle_graph); ("graph_idle_default", idle_default_graph);
        ("graph_blank", blank_graph); ("graph_blank_default", blank_default_graph);
        ("graph_flag", flag_graph); ("graph_boom", boom_graph);
        ("graph_pick", pick_graph)])
    ∅.

(** ** The rest of app/engine.py, app/registry.py and app/main.py *)

Module RunStateResponse.
Record t := mk {
  run_id : RunId;
  graph_id : GraphId;
  status : RunStatus;
  state : State;
  execution_log : list NodeName;
  error : option string;
}.
End RunStateResponse.

(** [get_run_state_response] (engine.py, lines 176-185). *)
Definition get_run_state_response (self : WorkflowEngine) (run_id : RunId)
    : Outcome RunStateResponse.t :=
  match get_run self run_id with
  | Raises e => Raises e
  | Returns run =>
      Returns (RunStateResponse.mk (Run.id run) (Run.graph_id run) (Run.status run)
                 (Run.state run) (Run.execution_log run) (Run.error run))
  end.

(** A step the engine can take from node [a] to node [b]: an entry of [a]'s
    conditional map when it has one, its linear edge otherwise. *)
Definition transition (graph : Graph.t) (a b : NodeName) : Prop :=
  match Graph.conditional_edges graph !! a with
  | Some cond_map => ∃ key, cond_map !! key = Some (Some b)
  | None => Graph.edges graph !! a = Some (Some b)
  end.

(** A log in which every entry is followed by a node the engine can step to
    from it. *)
Fixpoint follows_edges (graph : Graph.t) (log : list NodeName) : Prop :=
  match log with
  | a :: (b :: _) as rest => transition graph a b ∧ follows_edges graph rest
  | _ => True
  end.

(** Lines 146 and 157-160: the run object as [run_graph] leaves it after the
    loop, and the exception that leaves [run_graph], if any. *)
Definition finish (run : Run.t) (o : Outcome unit) : Run.t * Outcome unit :=
  match o with
  | Returns _ => (Run.set_status completed run, Returns tt)
  | Raises e =>
      if is_exception e then
        match str_of_exception e with
        | Raises e' => (Run.set_status failed run, Raises e')
        | Returns message =>
            (Run.set_error (Some message) (Run.set_status failed run), Returns tt)
        end
      else (run, Raises e)
  end.

(** *** app/registry.py

    The two module-level dictionaries.  Tools are arbitrary callables, so
    their type is left open.  The exceptions are [ValueError] and [KeyError],
    each with the message it is built from. *)
Record Registries (Tool : Type) := mkRegistries {
  NODE_REGISTRY : gmap string NodeFn;
  TOOL_REGISTRY : gmap string Tool;
}.
Arguments mkRegistries {Tool} _ _.
Arguments NODE_REGISTRY {Tool} _.
Arguments TOOL_REGISTRY {Tool} _.

Inductive RegistryError :=
| ValueError (message : string)
| KeyError (message : string).

Inductive RegistryResult (A : Type) :=
| Done (a : A)
| Fails (e : RegistryError).
Arguments Done {A} a.
Arguments Fails {A} e.

(** [register(name)(func)]: the decorator applied to a function. *)
Definition register {Tool : Type} (name : string) (func : NodeFn)
    (regs : Registries Tool) : Registries Tool * RegistryResult NodeFn :=
  if bool_decide (is_Some (NODE_REGISTRY regs !! name)) then
    (regs, Fails (ValueError ("Node '" +:+ name +:+ "' is already registered")))
  else
    (mkRegistries (<[name := func]> (NODE_REGISTRY regs)) (TOOL_REGISTRY regs),
     Done func).

(** [register_tool(name)(func)]. *)
Definition register_tool {Tool : Type} (name : string) (func : Tool)
    (regs : Registries Tool) : Registries Tool * RegistryResult Tool :=
  if bool_decide (is_Some (TOOL_REGISTRY regs !! name)) then
    (regs, Fails (ValueError ("Tool '" +:+ name +:+ "' is already registered")))
  else
    (mkRegistries (NODE_REGISTRY regs) (<[name := func]> (TOOL_REGISTRY regs)),
     Done func).

Definition get_node {Tool : Type} (regs : Registries Tool) (name : string)
    : RegistryResult NodeFn :=
  match NODE_REGISTRY regs !! name with
  | None => Fails (KeyError ("Node '" +:+ name +:+ "' is not registered"))
  | Some func => Done func
  end.

Definition get_tool {Tool : Type} (regs : Registries Tool) (name : string)
    : RegistryResult Tool :=
  match TOOL_REGISTRY regs !! name with
  | None => Fails (KeyError ("Tool '" +:+ name +:+ "' is not registered"))
  | Some func => Done func
  end.

(** The decorators of a module run in order when it is imported; the import
    stops at the first one that raises. *)
Fixpoint register_all {Tool : Type} (funcs : list (string * NodeFn))
    (regs : Registries Tool) : Registries Tool * RegistryResult unit :=
  match funcs with
  | [] => (regs, Done tt)
  | (name, func) :: funcs =>
      match register name func regs with
      | (regs, Fails e) => (regs, Fails e)
      | (regs, Done _) => register_all funcs regs
      end
  end.

(** *** app/main.py

    A route handler either returns its response model or raises
    [HTTPException(status_code, detail)]. *)
Inductive HttpResult (A : Type) :=
| Response (body : A)
| HTTPException (status_code : Z) (detail : string)
| Unhandled (e : Exception).
Arguments Response {A} body.
Arguments HTTPException {A} status_code detail.
Arguments Unhandled {A} e.

(** The two [except] clauses every handler has: [EngineError] becomes
    [HTTPException(status_code, detail=str(e))], any other [Exception]
    becomes status 500; what neither clause catches, and what [str(e)]
    raises inside a clause, leaves the handler. *)
Definition handle_error {A : Type} (status_code : Z) (e : Exception) : HttpResult A :=
  if is_engine_error e then
    match str_of_exception e with
    | Returns detail => HTTPException status_code detail
    | Raises e' => Unhandled e'
    end
  else if is_exception e then
    match str_of_exception e with
    | Returns message => HTTPException 500 ("Unexpected error: " +:+ message)
    | Raises e' => Unhandled e'
    end
  else Unhandled e.

Module GraphCreateResponse.
Record t := mk { graph_id : GraphId }.
End GraphCreateResponse.

Module GraphRunRequest.
Record t := mk {
  graph_id : GraphId;
  initial_state : State;
}.
End GraphRunRequest.

(** The handlers act on the module-level engine, passed in and out here. *)
Module main.

(** [POST /graph/create] *)
Definition create_graph (repr_names : list NodeName → string)
    (engine : WorkflowEngine) (payload : GraphCreateRequest.t) (uuid_hex : string)
    : WorkflowEngine * HttpResult GraphCreateResponse.t :=
  match create_graph repr_names engine payload uuid_hex with
  | (engine, Returns graph) =>
      (engine, Response (GraphCreateResponse.mk (Graph.id graph)))
  | (engine, Raises e) => (engine, handle_error 400 e)
  end.

(** [POST /graph/run]: the iteration limit is the default of the engine's
    [run_graph], 100. *)
Definition run_graph (engine : WorkflowEngine) (request : GraphRunRequest.t)
    (uuid_hex : string) : option (WorkflowEngine * HttpResult GraphRunResponse.t) :=
  match run_graph engine (GraphRunRequest.graph_id request)
                  (GraphRunRequest.initial_state request) 100 uuid_hex with
  | None => None
  | Some (engine, Returns result) => Some (engine, Response result)
  | Some (engine, Raises e) => Some (engine, handle_error 400 e)
  end.

(** [GET /graph/state/{run_id}] *)
Definition get_run_state (engine : WorkflowEngine) (run_id : RunId)
    : HttpResult RunStateResponse.t :=
  match get_run_state_response engine run_id with
  | Returns response => Response response
  | Raises e => handle_error 404 e
  end.

End main.

(** ** More sample data *)

(** A graph whose edge leads to a node nobody registered. *)
Definition ghost_graph : Graph.t :=
  Graph.mk "graph_ghost" "ghost" "A" ["A"] {["A" := Some "ghost"]} ∅.

(** The graph of [flag_graph] with linear edges added: one from the
    conditional node, and one mapped to [None]. *)
Definition flag_graph_edges : Graph.t :=
  Graph.mk "graph_flag" "flag" "flag" ["flag"; "A"; "B"]
           {["flag" := Some "A"; "B" := None]} {["flag" := flag_map]}.

(** A conditional node whose decision is the integer 12. *)
Definition count_map : gmap string (option string) :=
  {["12" := Some "B"; "left" := Some "A"]}.
Definition count_graph : Graph.t :=
  Graph.mk "graph_count" "count" "count" ["count"; "A"; "B"] ∅
           {["count" := count_map]}.

Definition more_engine : WorkflowEngine :=
  mkEngine (<["count" := set_key "count" (VInt 12)]> sample_registry)
           (list_to_map [("graph_ghost", ghost_graph); ("graph_count", count_graph)])
           ∅.

(** Registries with the sample nodes and one tool (tools as numbers here). *)
Definition sample_registries : Registries nat :=
  mkRegistries sample_registry {["count_words" := 7%nat]}.

(** The sample engine with another [boom]: same effect on the state, another
    message. *)
Definition other_boom_engine : WorkflowEngine :=
  mkEngine (<["boom" := failing_node "seen" "another failure"]> sample_registry)
           {["graph_boom" := boom_graph]} ∅.

(** A node that calls [sys.exit("stop")], and a node raising an exception
    whose [__str__] raises [KeyError("inner")]. *)
Definition halt_graph : Graph.t :=
  Graph.mk "graph_halt" "halt" "halt" ["halt"] ∅ ∅.
Definition mute_graph : Graph.t :=
  Graph.mk "graph_mute" "mute" "A" ["A"; "mute"] {["A" := Some "mute"]} ∅.
Definition halt_engine : WorkflowEngine :=
  mkEngine (<["halt" := λ st, (st, NodeRaises (BaseOnly "stop"))]>
              (<["mute" := λ st, (st, NodeRaises
                                        (Unprintable false (OtherException "'inner'")))]>
                 sample_registry))
           (list_to_map [("graph_halt", halt_graph); ("graph_mute", mute_graph)])
           ∅.

(** An engine that has recorded one run. *)
Definition recorded_run : Run.t :=
  Run.mk "run_1" "graph_ab" completed {["done" := VBool true]} ["A"; "B"] None.
Definition recorded_engine : WorkflowEngine :=
  mkEngine sample_registry {["graph_ab" := ab_graph]} {["run_1" := recorded_run]}.

(** Closes a goal about sample data by arithmetic or by evaluation. *)
Ltac by_eval := first [lia | vm_compute; reflexivity].

(** * Properties of the executor *)

(** An integer of at most 4300 digits is printed in decimal. *)
Lemma py_int_str_short n :
  (String.length (pretty (Z.abs n)) ≤ int_max_str_digits)%nat →
  py_int_str n = Returns (pretty n).
Proof. intros Hn. unfold py_int_str. by rewrite bool_decide_eq_true_2. Qed.

(** The limit error is an [Exception] with a description, whatever the limit. *)
Lemma limit_exceeded_description max_iterations :
  is_exception (limit_exceeded max_iterations) = true
  ∧ ∃ message, str_of_exception (limit_exceeded max_iterations) = Returns message.
Proof.
  unfold limit_exceeded, py_int_str. case_bool_decide; cbn; split; eauto.
Qed.

Lemma limit_exceeded_short max_iterations :
  (String.length (pretty (Z.abs max_iterations)) ≤ int_max_str_digits)%nat →
  limit_exceeded max_iterations
    = EngineError ("Max iterations (" +:+ pretty max_iterations
                     +:+ ") exceeded; possible infinite loop").
Proof. intros Hn. unfold limit_exceeded. by rewrite py_int_str_short. Qed.

Section Executor.
Variables (self : WorkflowEngine) (graph : Graph.t) (max_iterations : Z).

Lemma same_header_refl r : same_header r r.
  Proof. by repeat split. Qed.

Lemma same_header_trans r1 r2 r3 :
    same_header r1 r2 → same_header r2 r3 → same_header r1 r3.
  Proof. unfold same_header. intros (?&?&?&?) (?&?&?&?). repeat split; congruence. Qed.

  (** The iteration that finds the counter past the limit raises at once. *)
Lemma loop_body_limit run node i :
    (i + 1 > max_iterations)%Z →
    loop_body self graph max_iterations run node i
      = (run, Raises (limit_exceeded max_iterations)).
  Proof. intros Hi. unfold loop_body. by rewrite bool_decide_eq_true_2. Qed.

  (** Within the limit the node is logged before anything else can happen. *)
Lemma loop_body_log run node i run' o :
    (i + 1 ≤ max_iterations)%Z →
    loop_body self graph max_iterations run node i = (run', o) →
    Run.execution_log run' = Run.execution_log run ++ [node].
  Proof.
    intros Hi. unfold loop_body.
    rewrite bool_decide_eq_false_2 by lia.
    destruct (node_registry self !! node) as [fn|]; [|by intros [= <- _]].
    cbn. destruct (call_node fn (Run.state run)) as [st [[]|e]]; [|by intros [= <- _]].
    destruct (Graph.conditional_edges graph !! node) as [cm|]; [|by intros [= <- _]].
    by destruct (conditional_next _ _ _); intros [= <- _].
  Qed.

Lemma loop_body_header run node i run' o :
    loop_body self graph max_iterations run node i = (run', o) →
    same_header run run'.
  Proof.
    unfold loop_body. case_bool_decide; [by intros [= <- _]|].
    destruct (node_registry self !! node) as [fn|]; [|by intros [= <- _]].
    cbn. destruct (call_node fn (Run.state run)) as [st [[]|e]]; [|by intros [= <- _]].
    destruct (Graph.conditional_edges graph !! node) as [cm|]; [|by intros [= <- _]].
    by destruct (conditional_next _ _ _); intros [= <- _].
  Qed.

Lemma loop_body_returns run node i run' next_node i' :
    loop_body self graph max_iterations run node i = (run', Returns (next_node, i')) →
    i' = (i + 1)%Z ∧ (i + 1 ≤ max_iterations)%Z.
  Proof.
    unfold loop_body. case_bool_decide; [done|].
    destruct (node_registry self !! node) as [fn|]; [|done].
    cbn. destruct (call_node fn (Run.state run)) as [st [[]|e]]; [|done].
    destruct (Graph.conditional_edges graph !! node) as [cm|].
    - destruct (conditional_next _ _ _); [|done]. intros [= _ _ <-]. lia.
    - intros [= _ _ <-]. lia.
  Qed.

Lemma loop_body_log_prefix run node i run' o :
    loop_body self graph max_iterations run node i = (run', o) →
    ∃ more, Run.execution_log run' = Run.execution_log run ++ more.
  Proof.
    intros Hb. destruct (decide (i + 1 ≤ max_iterations)%Z) as [Hi|Hi].
    - exists [node]. by apply (loop_body_log _ _ _ _ _ Hi Hb).
    - rewrite loop_body_limit in Hb by lia. injection Hb as <- _.
      exists []. by rewrite app_nil_r.
  Qed.

  (** The conditional step, when the node is registered and returns. *)
Lemma loop_body_conditional run node i node_fn state cond_map :
    (i + 1 ≤ max_iterations)%Z →
    node_registry self !! node = Some node_fn →
    call_node node_fn (Run.state run) = (state, Returns tt) →
    Graph.conditional_edges graph !! node = Some cond_map →
    loop_body self graph max_iterations run node i
      = (Run.set_state state
           (Run.set_execution_log (Run.execution_log run ++ [node]) run),
         match conditional_next node cond_map state with
         | Raises e => Raises e
         | Returns next_node => Returns (next_node, (i + 1)%Z)
         end).
  Proof.
    intros Hi Hreg Hcall Hcm. unfold loop_body.
    rewrite bool_decide_eq_false_2 by lia. rewrite Hreg. cbn.
    rewrite Hcall, Hcm. cbn. by destruct (conditional_next _ _ _).
  Qed.


  (** *** The loop *)

  (** The loop ends: the counter passes the limit after at most
      [max_iterations - iter_count + 1] iterations. *)
Lemma run_loop_total fuel run current_node i :
    (Z.to_nat (max_iterations - i) < fuel)%nat →
    is_Some (run_loop fuel self graph max_iterations run current_node i).
  Proof.
    revert run current_node i.
    induction fuel as [|fuel IH]; intros run current_node i Hfuel; [lia|].
    destruct current_node as [node|]; cbn; [|by eexists].
    destruct (loop_body self graph max_iterations run node i)
      as [run' [[next_node i']|e]] eqn:Hb; [|by eexists].
    apply loop_body_returns in Hb as [-> Hi]. apply IH. lia.
  Qed.

Lemma run_loop_mono fuel fuel' run current_node i r :
    run_loop fuel self graph max_iterations run current_node i = Some r →
    (fuel ≤ fuel')%nat →
    run_loop fuel' self graph max_iterations run current_node i = Some r.
  Proof.
    revert fuel' run current_node i.
    induction fuel as [|fuel IH]; intros fuel' run current_node i Hr Hle.
    - destruct current_node; [done|]. by destruct fuel'.
    - destruct fuel' as [|fuel']; [lia|].
      destruct current_node as [node|]; cbn in *; [|done].
      destruct (loop_body self graph max_iterations run node i)
        as [run' [[next_node i']|e]]; [|done].
      apply IH; [done|lia].
  Qed.

Lemma run_loop_iterations k fuel run current_node i run' current_node' i' :
    iterations k self graph max_iterations run current_node i
      = Some (run', current_node', i') →
    run_loop (k + fuel) self graph max_iterations run current_node i
      = run_loop fuel self graph max_iterations run' current_node' i'.
  Proof.
    revert run current_node i.
    induction k as [|k IH]; intros run current_node i Hk; cbn in *.
    - by injection Hk as -> -> ->.
    - destruct current_node as [node|]; [|done].
      destruct (loop_body self graph max_iterations run node i)
        as [run1 [[next_node i1]|e]]; [|done].
      by apply IH.
  Qed.

  (** After [k] iterations the counter has advanced by [k] and the log has
      grown by the [k] nodes visited. *)
Lemma iterations_log k run current_node i run' current_node' i' :
    iterations k self graph max_iterations run current_node i
      = Some (run', current_node', i') →
    i' = (i + Z.of_nat k)%Z
    ∧ Run.execution_log run'
        = Run.execution_log run
            ++ visited k self graph max_iterations run current_node i
    ∧ length (visited k self graph max_iterations run current_node i) = k
    ∧ same_header run run'.
  Proof.
    revert run current_node i.
    induction k as [|k IH]; intros run current_node i Hk; cbn in *.
    - simplify_eq. rewrite app_nil_r. repeat split; lia.
    - destruct current_node as [node|]; [|done].
      destruct (loop_body self graph max_iterations run node i)
        as [run1 [[next_node i1]|e]] eqn:Hb; [|done].
      pose proof (loop_body_returns _ _ _ _ _ _ Hb) as [-> Hi].
      pose proof (loop_body_log _ _ _ _ _ Hi Hb) as Hlog.
      pose proof (loop_body_header _ _ _ _ _ Hb) as Hhd.
      apply IH in Hk as (-> & Hlog' & Hlen & Hhd').
      split; [lia|]. split; [|split].
      + by rewrite Hlog', Hlog, <- app_assoc.
      + cbn. by rewrite Hlen.
      + by eapply same_header_trans.
  Qed.

Lemma run_loop_log_prefix fuel run current_node i run' o :
    run_loop fuel self graph max_iterations run current_node i = Some (run', o) →
    (∃ more, Run.execution_log run' = Run.execution_log run ++ more)
    ∧ same_header run run'.
  Proof.
    revert run current_node i.
    induction fuel as [|fuel IH]; intros run current_node i Hr.
    - destruct current_node; [done|]. injection Hr as <- _.
      split; [exists []; by rewrite app_nil_r|apply same_header_refl].
    - destruct current_node as [node|]; cbn in Hr.
      2:{ injection Hr as <- _.
          split; [exists []; by rewrite app_nil_r|apply same_header_refl]. }
      destruct (loop_body self graph max_iterations run node i)
        as [run1 [[next_node i1]|e]] eqn:Hb.
      + apply IH in Hr as [[more2 Hp] Hh].
        destruct (loop_body_log_prefix _ _ _ _ _ Hb) as [more1 Hp1]. split.
        * exists (more1 ++ more2). by rewrite Hp, Hp1, <- app_assoc.
        * eapply same_header_trans; [by eapply loop_body_header|done].
      + injection Hr as <- _. split.
        * by eapply loop_body_log_prefix.
        * by eapply loop_body_header.
  Qed.

Lemma iterations_app k n run current_node i run' current_node' i' :
    iterations k self graph max_iterations run current_node i
      = Some (run', current_node', i') →
    iterations (k + n) self graph max_iterations run current_node i
      = iterations n self graph max_iterations run' current_node' i'.
  Proof.
    revert run current_node i.
    induction k as [|k IH]; intros run current_node i Hk; cbn in *.
    - by simplify_eq.
    - destruct current_node as [node|]; [|done].
      destruct (loop_body self graph max_iterations run node i)
        as [run1 [[next_node i1]|e]]; [|done].
      by apply IH.
  Qed.

Lemma iterations_within_limit k run current_node i run' current_node' i' :
    iterations k self graph max_iterations run current_node i
      = Some (run', current_node', i') →
    (i ≤ max_iterations)%Z → (i' ≤ max_iterations)%Z.
  Proof.
    revert run current_node i.
    induction k as [|k IH]; intros run current_node i Hk Hi; cbn in *.
    - by simplify_eq.
    - destruct current_node as [node|]; [|done].
      destruct (loop_body self graph max_iterations run node i)
        as [run1 [[next_node i1]|e]] eqn:Hb; [|done].
      apply loop_body_returns in Hb as [-> Hle]. eapply IH; [done|lia].
  Qed.

  (** A conditional node that always decides for itself keeps the loop at
      that node for as long as the limit allows. *)
Lemma self_loop_iterations node node_fn (cond_map : gmap string (option string)) :
    node_registry self !! node = Some node_fn →
    Graph.conditional_edges graph !! node = Some cond_map →
    (∀ st, ∃ st', call_node node_fn st = (st', Returns tt)
                  ∧ conditional_next node cond_map st' = Returns (Some node)) →
    ∀ n run i,
      (i + Z.of_nat n ≤ max_iterations)%Z →
      ∃ run', iterations n self graph max_iterations run (Some node) i
              = Some (run', Some node, (i + Z.of_nat n)%Z).
  Proof.
    intros Hreg Hcm Hself. induction n as [|n IH]; intros run i Hi.
    - exists run. cbn. by rewrite Z.add_0_r.
    - destruct (Hself (Run.state run)) as (st' & Hcall & Hnext).
      cbn. rewrite (loop_body_conditional run node i node_fn st' cond_map
                      ltac:(lia) Hreg Hcall Hcm), Hnext.
      assert (i + 1 + Z.of_nat n ≤ max_iterations)%Z as Hi' by lia.
      destruct (IH (Run.set_state st'
                      (Run.set_execution_log (Run.execution_log run ++ [node]) run))
                   (i + 1)%Z Hi') as [run' Hrun'].
      exists run'. rewrite Hrun'.
      by replace (i + Z.of_nat (S n))%Z with (i + 1 + Z.of_nat n)%Z by lia.
  Qed.


End Executor.

Section RunGraph.
Variables (self : WorkflowEngine) (graph : Graph.t) (graph_id : GraphId).
Variables (initial_state : State) (max_iterations : Z) (uuid_hex : string).
Hypothesis stored : graphs self !! graph_id = Some graph.

(** What [run_graph] does for a stored graph, from any run of the loop. *)
Lemma run_graph_of_loop fuel run o :
  run_loop fuel self graph max_iterations (new_run graph initial_state uuid_hex)
           (Some (Graph.entry_node graph)) 0 = Some (run, o) →
  run_graph self graph_id initial_state max_iterations uuid_hex
    = Some (store_run self (finish run o).1,
            match (finish run o).2 with
            | Returns _ => Returns (response_of (finish run o).1)
            | Raises e => Raises e
            end).
Proof.
  intros Hloop.
  destruct (run_loop_total self graph max_iterations (S (Z.to_nat max_iterations))
              (new_run graph initial_state uuid_hex)
              (Some (Graph.entry_node graph)) 0) as [r Hr]; [lia|].
  assert (r = (run, o)) as ->.
  { pose proof (run_loop_mono _ _ _ _ (fuel `max` S (Z.to_nat max_iterations))
                  _ _ _ _ Hloop ltac:(lia)) as H1.
    pose proof (run_loop_mono _ _ _ _ (fuel `max` S (Z.to_nat max_iterations))
                  _ _ _ _ Hr ltac:(lia)) as H2.
    congruence. }
  unfold run_graph, get_graph, finish. rewrite stored, Hr.
  destruct o as [[]|e]; [done|].
  destruct (is_exception e); [|done].
  by destruct (str_of_exception e).
Qed.

(** A loop that ends with an exception that [except Exception] catches and
    [str] can print gives a failed summary. *)
Lemma run_ends_failed fuel run e message :
  run_loop fuel self graph max_iterations (new_run graph initial_state uuid_hex)
           (Some (Graph.entry_node graph)) 0 = Some (run, Raises e) →
  is_exception e = true →
  str_of_exception e = Returns message →
  run_ends self graph_id initial_state max_iterations uuid_hex
    failed (Some message) (Run.execution_log run) (Run.state run).
Proof.
  intros Hloop Hexc Hstr.
  pose proof (run_graph_of_loop _ _ _ Hloop) as Hrun.
  apply run_loop_log_prefix in Hloop as [_ (Hid & _ & _ & Herr)].
  unfold finish in Hrun. rewrite Hexc, Hstr in Hrun. cbn in Hrun.
  unfold run_ends. rewrite Hrun. eexists _, _, _. split; [reflexivity|].
  cbn. unfold get_run, store_run. cbn. by rewrite lookup_insert_eq.
Qed.

Lemma run_ends_completed fuel run :
  run_loop fuel self graph max_iterations (new_run graph initial_state uuid_hex)
           (Some (Graph.entry_node graph)) 0 = Some (run, Returns tt) →
  run_ends self graph_id initial_state max_iterations uuid_hex
    completed None (Run.execution_log run) (Run.state run).
Proof.
  intros Hloop.
  pose proof (run_graph_of_loop _ _ _ Hloop) as Hrun.
  apply run_loop_log_prefix in Hloop as [_ (Hid & _ & _ & Herr)].
  cbn in Hrun. unfold run_ends. rewrite Hrun. eexists _, _, _.
  split; [reflexivity|].
  cbn. unfold get_run, store_run. cbn. by rewrite lookup_insert_eq.
Qed.

(** A failure in the iteration a run has arrived at ends the run. *)
Lemma run_fails_at k run node i run' e message :
  arrives self graph max_iterations initial_state uuid_hex k run node i →
  loop_body self graph max_iterations run node i = (run', Raises e) →
  is_exception e = true →
  str_of_exception e = Returns message →
  run_ends self graph_id initial_state max_iterations uuid_hex
    failed (Some message) (Run.execution_log run') (Run.state run').
Proof.
  intros Harr Hb Hexc Hstr.
  apply (run_ends_failed (k + 1) run' e message); [|done..].
  rewrite (run_loop_iterations _ _ _ _ _ _ _ _ _ _ _ Harr). cbn. by rewrite Hb.
Qed.

  (** A loop that runs out of nodes ends the run successfully. *)
Lemma run_completes_at k run i :
    iterations k self graph max_iterations (new_run graph initial_state uuid_hex)
               (Some (Graph.entry_node graph)) 0 = Some (run, None, i) →
    run_ends self graph_id initial_state max_iterations uuid_hex
      completed None (Run.execution_log run) (Run.state run).
  Proof.
    intros Hk. apply (run_ends_completed (k + 0) run).
    by rewrite (run_loop_iterations _ _ _ _ _ _ _ _ _ _ _ Hk).
  Qed.

  (** On arrival the log is the list of nodes visited so far and the counter
      is their number. *)
Lemma arrives_log k run node i :
    arrives self graph max_iterations initial_state uuid_hex k run node i →
    i = Z.of_nat k
    ∧ Run.execution_log run
        = visited_before self graph max_iterations initial_state uuid_hex k
    ∧ length (Run.execution_log run) = k.
  Proof.
    intros Harr. apply iterations_log in Harr as (-> & Hlog & Hlen & _).
    cbn in Hlog. unfold visited_before. rewrite Hlog.
    split; [lia|]. by split.
  Qed.

Lemma iterations_snoc k run node i run' next_node i' :
    arrives self graph max_iterations initial_state uuid_hex k run node i →
    loop_body self graph max_iterations run node i = (run', Returns (next_node, i')) →
    iterations (S k) self graph max_iterations (new_run graph initial_state uuid_hex)
               (Some (Graph.entry_node graph)) 0 = Some (run', next_node, i').
  Proof.
    unfold arrives.
    generalize (new_run graph initial_state uuid_hex), (Some (Graph.entry_node graph)), 0%Z.
    induction k as [|k IH]; intros run0 c0 i0 Hk Hb; cbn in Hk.
    - simplify_eq. cbn. by rewrite Hb.
    - destruct c0 as [n0|]; [|done]. cbn.
      destruct (loop_body self graph max_iterations run0 n0 i0)
        as [run1 [[nx i1]|e1]]; [|done].
      by apply IH.
  Qed.

End RunGraph.

(** *** Decisions *)

(** Without a decision value the key is ["default"] when the map has it, and
    the node cannot be routed otherwise. *)
Lemma conditional_next_undecided node (cond_map : gmap string (option string))
    (state : gmap string Value) :
  default VNone (state !! node) = VNone →
  conditional_next node cond_map state
    = match cond_map !! "default" with
      | Some d => Returns d
      | None => Raises (EngineError ("Conditional node '" +:+ node
                                       +:+ "' did not set state['" +:+ node
                                       +:+ "']; cannot decide next node"))
      end.
Proof.
  intros Hv. unfold conditional_next, decision_key, dict_get. rewrite Hv.
  destruct (cond_map !! "default") as [d|] eqn:Hd.
  - case_bool_decide as H1; [|exfalso; eauto]. rewrite Hd. cbn.
    by case_bool_decide.
  - case_bool_decide as H1; [|done]. by destruct H1.
Qed.

(** What the lookup of a resolved key gives: the node the key is mapped to,
    and the ["default"] entry when there is none. *)
Lemma conditional_next_key node (cond_map : gmap string (option string))
    (state : gmap string Value) key :
  decision_key node cond_map (default VNone (state !! node)) = Returns key →
  conditional_next node cond_map state
    = Returns match cond_map !! key with
              | Some (Some target) => Some target
              | _ => dict_get cond_map "default"
              end.
Proof.
  intros Hk. unfold conditional_next. rewrite Hk. unfold dict_get.
  destruct (cond_map !! key) as [[target|]|];
    case_bool_decide as H; cbn in *; try done.
  - by destruct H.
  - destruct (cond_map !! "default") as [d|] eqn:Hd; [|done].
    exfalso. apply H. eauto.
  - destruct (cond_map !! "default") as [d|] eqn:Hd; [|done].
    exfalso. apply H. eauto.
Qed.

Section Claims.
Variables (self : WorkflowEngine) (graph : Graph.t) (graph_id : GraphId).
Variables (initial_state : State) (max_iterations : Z) (uuid_hex : string).
Hypothesis stored : graphs self !! graph_id = Some graph.

  (** Shared by the claims on missing decisions: a conditional node that
      leaves no decision value behind. *)
Lemma undecided_step k run node i node_fn state
      (cond_map : gmap string (option string)) :
    arrives self graph max_iterations initial_state uuid_hex k run node i →
    (i + 1 ≤ max_iterations)%Z →
    node_registry self !! node = Some node_fn →
    call_node node_fn (Run.state run) = (state, Returns tt) →
    Graph.conditional_edges graph !! node = Some cond_map →
    default VNone (state !! node) = VNone →
    (cond_map !! "default" = None →
     run_ends self graph_id initial_state max_iterations uuid_hex failed
       (Some ("Conditional node '" +:+ node +:+ "' did not set state['" +:+ node
                +:+ "']; cannot decide next node"))
       (visited_before self graph max_iterations initial_state uuid_hex k ++ [node])
       state)
    ∧ (∀ d, cond_map !! "default" = Some d →
       ∃ run',
         iterations (S k) self graph max_iterations
                    (new_run graph initial_state uuid_hex)
                    (Some (Graph.entry_node graph)) 0
           = Some (run', d, (i + 1)%Z)
         ∧ Run.execution_log run'
             = visited_before self graph max_iterations initial_state uuid_hex k
                 ++ [node]
         ∧ Run.state run' = state).
  Proof.
    intros Harr Hi Hreg Hcall Hcm Hv.
    pose proof (loop_body_conditional self graph max_iterations run node i
                  node_fn state cond_map Hi Hreg Hcall Hcm) as Hb.
    rewrite (conditional_next_undecided _ _ _ Hv) in Hb.
    destruct (arrives_log _ _ _ _ _ _ _ _ _ Harr) as (_ & Hlog & _).
    split.
    - intros Hd. rewrite Hd in Hb.
      pose proof (run_fails_at self graph graph_id initial_state max_iterations
                    uuid_hex stored k run node i _ _ _ Harr Hb eq_refl eq_refl)
        as Hends.
      cbn in Hends. by rewrite Hlog in Hends.
    - intros d Hd. rewrite Hd in Hb. eexists. split.
      + by apply (iterations_snoc _ _ _ _ _ _ _ _ _ _ _ _ Harr Hb).
      + cbn. by rewrite Hlog.
  Qed.

(** C2 (as amended). A failure raised in any iteration a run of a stored
    graph arrives at (the iteration limit, an unregistered node, an exception
    from the node function or from [str], a missing decision) that is an
    [Exception] and whose description [str(e)] can be computed is not passed
    on to the caller: [run_graph] returns a summary with status [failed]
    whose log and state are those of the run object when the exception was
    raised, and the description is recorded as the error of the stored run
    (the summary has no error field).  For an exception raised by the node
    function itself, the log ends with that node and the state is the
    dictionary as the function had mutated it. *)
Theorem run_graph_contains_failures :
  (∀ k run node i run' e message,
      arrives self graph max_iterations initial_state uuid_hex k run node i →
      loop_body self graph max_iterations run node i = (run', Raises e) →
      is_exception e = true →
      str_of_exception e = Returns message →
      run_ends self graph_id initial_state max_iterations uuid_hex failed
        (Some message) (Run.execution_log run') (Run.state run'))
  ∧ (∀ k run node i node_fn mutated e message,
        arrives self graph max_iterations initial_state uuid_hex k run node i →
        (i + 1 ≤ max_iterations)%Z →
        node_registry self !! node = Some node_fn →
        node_fn (Run.state run) = (mutated, NodeRaises e) →
        is_exception e = true →
        str_of_exception e = Returns message →
        run_ends self graph_id initial_state max_iterations uuid_hex failed
          (Some message) (Run.execution_log run ++ [node]) mutated).
Proof.
  split.
  - intros k run node i run' e message Harr Hb Hexc Hstr.
    by eapply run_fails_at.
  - intros k run node i node_fn mutated e message Harr Hi Hreg Hfn Hexc Hstr.
    assert (loop_body self graph max_iterations run node i
            = (Run.set_state mutated
                 (Run.set_execution_log (Run.execution_log run ++ [node]) run),
               Raises e)) as Hb.
    { unfold loop_body. rewrite bool_decide_eq_false_2 by lia.
      rewrite Hreg. cbn. unfold call_node. by rewrite Hfn. }
    exact (run_fails_at self graph graph_id initial_state max_iterations
             uuid_hex stored k run node i _ _ _ Harr Hb Hexc Hstr).
Qed.

(** C9. With a limit of at least one, the log of the run is not empty and
    starts with the graph's entry node, however the run ends: this holds for
    the run recorded in the engine (also when [run_graph] raises) and for
    the summary [run_graph] returns. *)
Theorem execution_log_starts_at_entry :
  (1 ≤ max_iterations)%Z →
  ∃ self' r run,
    run_graph self graph_id initial_state max_iterations uuid_hex = Some (self', r)
    ∧ get_run self' ("run_" +:+ uuid_hex) = Returns run
    ∧ head (Run.execution_log run) = Some (Graph.entry_node graph)
    ∧ (∀ resp, r = Returns resp →
               head (GraphRunResponse.execution_log resp)
                 = Some (Graph.entry_node graph)).
Proof.
  intros Hmax.
  destruct (run_loop_total self graph max_iterations (S (Z.to_nat max_iterations))
              (new_run graph initial_state uuid_hex)
              (Some (Graph.entry_node graph)) 0) as [[run o] Hr]; [lia|].
  pose proof (run_graph_of_loop _ _ _ _ _ _ stored _ _ _ Hr) as Hrun.
  assert (head (Run.execution_log run) = Some (Graph.entry_node graph)) as Hhead.
  { cbn [run_loop] in Hr.
    destruct (loop_body self graph max_iterations
                (new_run graph initial_state uuid_hex) (Graph.entry_node graph) 0)
      as [run1 [[next_node i1]|e]] eqn:Hb.
    - apply loop_body_log in Hb; [|lia].
      apply run_loop_log_prefix in Hr as [[more Hmore] _].
      by rewrite Hmore, Hb.
    - apply loop_body_log in Hb; [|lia]. injection Hr as <- _. by rewrite Hb. }
  apply run_loop_log_prefix in Hr as [_ (Hid & _)].
  assert (Run.id (finish run o).1 = "run_" +:+ uuid_hex
          ∧ Run.execution_log (finish run o).1 = Run.execution_log run)
    as [Hfid Hflog].
  { unfold finish. destruct o as [[]|e]; [done|].
    destruct (is_exception e); [|done]. by destruct (str_of_exception e). }
  eexists _, _, (finish run o).1. split; [exact Hrun|]. split; [|split].
  - unfold get_run, store_run. cbn. rewrite <- Hfid. by rewrite lookup_insert_eq.
  - by rewrite Hflog.
  - intros resp Hresp. destruct (finish run o).2; [|done].
    injection Hresp as <-. cbn. by rewrite Hflog.
Qed.

(** C3. A run that arrives at a conditional node which is registered,
    never raises and always decides for itself ends with status [failed],
    and its log then holds exactly [max_iterations] entries (for a limit of
    zero or more): the counter is checked before the node is logged.  The
    error is the iteration-limit error naming the configured limit,
    whenever the limit can be printed (at most 4300 digits). *)
Theorem self_loop_hits_iteration_limit k run node i node_fn
    (cond_map : gmap string (option string)) :
  (0 ≤ max_iterations)%Z →
  arrives self graph max_iterations initial_state uuid_hex k run node i →
  node_registry self !! node = Some node_fn →
  Graph.conditional_edges graph !! node = Some cond_map →
  (∀ st, ∃ st', call_node node_fn st = (st', Returns tt)
                ∧ conditional_next node cond_map st' = Returns (Some node)) →
  ∃ log state err,
    run_ends self graph_id initial_state max_iterations uuid_hex failed
      (Some err) log state
    ∧ length log = Z.to_nat max_iterations
    ∧ ((String.length (pretty (Z.abs max_iterations)) ≤ int_max_str_digits)%nat →
       err = "Max iterations (" +:+ pretty max_iterations
               +:+ ") exceeded; possible infinite loop").
Proof.
  intros Hmax Harr Hreg Hcm Hself.
  pose proof (iterations_within_limit _ _ _ _ _ _ _ _ _ _ Harr Hmax) as Hi.
  destruct (arrives_log _ _ _ _ _ _ _ _ _ Harr) as (Hik & _ & _).
  destruct (self_loop_iterations self graph max_iterations node node_fn cond_map
              Hreg Hcm Hself (Z.to_nat (max_iterations - i)) run i ltac:(lia))
    as [run' Hrun'].
  replace (i + Z.of_nat (Z.to_nat (max_iterations - i)))%Z
    with max_iterations in Hrun' by lia.
  assert (arrives self graph max_iterations initial_state uuid_hex
            (k + Z.to_nat (max_iterations - i)) run' node max_iterations) as Harr'.
  { unfold arrives. by rewrite (iterations_app _ _ _ _ _ _ _ _ _ _ _ Harr). }
  destruct (limit_exceeded_description max_iterations) as [Hexc [err Hstr]].
  pose proof (run_fails_at self graph graph_id initial_state max_iterations
                uuid_hex stored _ _ _ _ _ _ _ Harr'
                (loop_body_limit self graph max_iterations run' node
                   max_iterations ltac:(lia)) Hexc Hstr) as Hends.
  exists (Run.execution_log run'), (Run.state run'), err.
  split; [done|]. split.
  - destruct (arrives_log _ _ _ _ _ _ _ _ _ Harr') as (_ & _ & ->). lia.
  - intros Hshort. rewrite (limit_exceeded_short _ Hshort) in Hstr.
    by injection Hstr as <-.
Qed.

  (** C4. A run arrives at a conditional node that is registered and returns
      without leaving a value under its own name in the state.  If the node's
      map has no ["default"] entry, the run fails with the missing-decision
      error naming the node, and its log is the nodes visited so far followed
      by that node.  If it has one, the iteration ends normally and the loop
      goes on with the node (or the stop) the ["default"] entry gives. *)
Theorem missing_decision_without_default k run node i node_fn state
      (cond_map : gmap string (option string)) :
    arrives self graph max_iterations initial_state uuid_hex k run node i →
    (i + 1 ≤ max_iterations)%Z →
    node_registry self !! node = Some node_fn →
    call_node node_fn (Run.state run) = (state, Returns tt) →
    Graph.conditional_edges graph !! node = Some cond_map →
    state !! node = None →
    (cond_map !! "default" = None →
     run_ends self graph_id initial_state max_iterations uuid_hex failed
       (Some ("Conditional node '" +:+ node +:+ "' did not set state['" +:+ node
                +:+ "']; cannot decide next node"))
       (visited_before self graph max_iterations initial_state uuid_hex k ++ [node])
       state)
    ∧ (∀ d, cond_map !! "default" = Some d →
       ∃ run',
         iterations (S k) self graph max_iterations
                    (new_run graph initial_state uuid_hex)
                    (Some (Graph.entry_node graph)) 0
           = Some (run', d, (i + 1)%Z)
         ∧ Run.execution_log run'
             = visited_before self graph max_iterations initial_state uuid_hex k
                 ++ [node]
         ∧ Run.state run' = state).
  Proof.
    intros Harr Hi Hreg Hcall Hcm Hunset.
    eapply undecided_step; eauto. by rewrite Hunset.
  Qed.

  (** C10. A value of [None] stored under the node's name is routed exactly
      as if the key were not in the state: the successor is the ["default"]
      entry when the map has one, and the run fails with the missing-decision
      error otherwise. *)
Theorem none_decision_is_no_decision k run node i node_fn state
      (cond_map : gmap string (option string)) :
    arrives self graph max_iterations initial_state uuid_hex k run node i →
    (i + 1 ≤ max_iterations)%Z →
    node_registry self !! node = Some node_fn →
    call_node node_fn (Run.state run) = (state, Returns tt) →
    Graph.conditional_edges graph !! node = Some cond_map →
    state !! node = Some VNone →
    conditional_next node cond_map state
      = conditional_next node cond_map (delete node state)
    ∧ (cond_map !! "default" = None →
       run_ends self graph_id initial_state max_iterations uuid_hex failed
         (Some ("Conditional node '" +:+ node +:+ "' did not set state['" +:+ node
                  +:+ "']; cannot decide next node"))
         (visited_before self graph max_iterations initial_state uuid_hex k ++ [node])
         state)
    ∧ (∀ d, cond_map !! "default" = Some d →
       ∃ run',
         iterations (S k) self graph max_iterations
                    (new_run graph initial_state uuid_hex)
                    (Some (Graph.entry_node graph)) 0
           = Some (run', d, (i + 1)%Z)
         ∧ Run.execution_log run'
             = visited_before self graph max_iterations initial_state uuid_hex k
                 ++ [node]
         ∧ Run.state run' = state).
  Proof.
    intros Harr Hi Hreg Hcall Hcm Hnone. split.
    - rewrite !conditional_next_undecided; [done| |].
      + by rewrite lookup_delete_eq.
      + by rewrite Hnone.
    - eapply undecided_step; eauto. by rewrite Hnone.
  Qed.

  (** C5. When the value a conditional node leaves under its own name is a
      boolean, the lookup key is the literal ["true"] or ["false"] (not the
      text [str] gives for the value), and the successor is what the map
      holds under that key, with the ["default"] entry as the fallback; no
      other key of the map has any influence. *)
Theorem boolean_decision_uses_true_false_keys run node i node_fn state
      (cond_map : gmap string (option string)) (b : bool) :
    (i + 1 ≤ max_iterations)%Z →
    node_registry self !! node = Some node_fn →
    call_node node_fn (Run.state run) = (state, Returns tt) →
    Graph.conditional_edges graph !! node = Some cond_map →
    state !! node = Some (VBool b) →
    decision_key node cond_map (VBool b) = Returns (if b then "true" else "false")
    ∧ py_str (VBool b) ≠ Returns (if b then "true" else "false")
    ∧ loop_body self graph max_iterations run node i
        = (Run.set_state state
             (Run.set_execution_log (Run.execution_log run ++ [node]) run),
           Returns (match cond_map !! (if b then "true" else "false") with
                    | Some (Some target) => Some target
                    | _ => dict_get cond_map "default"
                    end, (i + 1)%Z))
    ∧ (∀ cond_map' : gmap string (option string),
          cond_map' !! (if b then "true" else "false")
            = cond_map !! (if b then "true" else "false") →
          cond_map' !! "default" = cond_map !! "default" →
          conditional_next node cond_map' state
            = conditional_next node cond_map state).
  Proof.
    intros Hi Hreg Hcall Hcm Hb.
    split; [done|]. split; [by destruct b|]. split.
    - rewrite (loop_body_conditional self graph max_iterations run node i
                 node_fn state cond_map Hi Hreg Hcall Hcm).
      by rewrite (conditional_next_key node cond_map state
                    (if b then "true" else "false")) by by rewrite Hb.
    - intros cond_map' Hkey Hdef.
      rewrite (conditional_next_key node cond_map state
                 (if b then "true" else "false")) by by rewrite Hb.
      rewrite (conditional_next_key node cond_map' state
                 (if b then "true" else "false")) by by rewrite Hb.
      unfold dict_get. by rewrite Hkey, Hdef.
  Qed.


End Claims.

(** * Properties of the graph store *)

Section GraphStore.
Variable repr_names : list NodeName → string.

Lemma missing_nil (registry : gmap string NodeFn) (names : list NodeName) :
    (∀ n, n ∈ names → is_Some (registry !! n)) →
    filter (λ n, registry !! n = None) names = [].
  Proof.
    induction names as [|n names IH]; intros Hreg; [done|].
    rewrite filter_cons_False.
    - apply IH. intros m Hm. apply Hreg. by right.
    - destruct (Hreg n ltac:(left)) as [fn Hfn]. by rewrite Hfn.
  Qed.

Lemma create_graph_raises_unchanged self payload uuid_hex self' e :
    create_graph repr_names self payload uuid_hex = (self', Raises e) →
    self' = self.
  Proof.
    unfold create_graph.
    destruct (filter _ _); [|by intros [= <- _]].
    by case_bool_decide; intros [= <- _].
  Qed.

  (** C7. For a request whose nodes are all registered and whose entry node
      is among its nodes, [create_graph] stores a graph, and [get_graph] on
      the returned id gives that graph back: its entry node, nodes and edges
      are the submitted ones, and its conditional edges are the submitted
      ones (empty when none were submitted). *)
Theorem create_then_get_graph self payload uuid_hex :
    (∀ n, n ∈ GraphCreateRequest.nodes payload →
          is_Some (node_registry self !! n)) →
    GraphCreateRequest.entry_node payload ∈ GraphCreateRequest.nodes payload →
    ∃ self' g,
      create_graph repr_names self payload uuid_hex = (self', Returns g)
      ∧ get_graph self' (Graph.id g) = Returns g
      ∧ Graph.entry_node g = GraphCreateRequest.entry_node payload
      ∧ Graph.nodes g = GraphCreateRequest.nodes payload
      ∧ Graph.edges g = GraphCreateRequest.edges payload
      ∧ Graph.conditional_edges g
          = default ∅ (GraphCreateRequest.conditional_edges payload).
  Proof.
    intros Hreg Hentry. unfold create_graph.
    rewrite (missing_nil _ _ Hreg). cbn.
    rewrite bool_decide_eq_true_2 by done.
    eexists _, _. split; [reflexivity|].
    unfold get_graph. cbn. by rewrite lookup_insert_eq.
  Qed.

  (** C8. When some of the request's nodes are not registered,
      [create_graph] raises the error that lists every one of them (in the
      order of the request), whatever the entry node is; and whenever
      [create_graph] raises, the engine is left as it was, so that the id the
      graph would have got (an unused one) is still unknown to [get_graph]. *)
Theorem create_graph_unknown_nodes self payload uuid_hex :
    (∀ n, n ∈ filter (λ n, node_registry self !! n = None)
                     (GraphCreateRequest.nodes payload)
          ↔ n ∈ GraphCreateRequest.nodes payload ∧ node_registry self !! n = None)
    ∧ ((∃ n, n ∈ GraphCreateRequest.nodes payload
             ∧ node_registry self !! n = None) →
       create_graph repr_names self payload uuid_hex
         = (self,
            Raises (EngineError
                      ("Nodes not found in registry: "
                         +:+ repr_names
                               (filter (λ n, node_registry self !! n = None)
                                       (GraphCreateRequest.nodes payload))))))
    ∧ (∀ self' e,
          create_graph repr_names self payload uuid_hex = (self', Raises e) →
          self' = self
          ∧ (graphs self !! ("graph_" +:+ uuid_hex) = None →
             get_graph self' ("graph_" +:+ uuid_hex)
               = Raises (EngineError ("Graph not found: " +:+ "graph_" +:+ uuid_hex)))).
  Proof.
    split; [|split].
    - intros n. rewrite list_elem_of_filter. tauto.
    - intros (n & Hn & Hreg). unfold create_graph.
      destruct (filter _ _) as [|m missing] eqn:Hmissing; [|done].
      exfalso. by apply (filter_nil_not_elem_of _ _ n Hmissing Hreg).
    - intros self' e Hraise.
      apply create_graph_raises_unchanged in Hraise as ->.
      split; [done|]. intros Hfresh. unfold get_graph. by rewrite Hfresh.
  Qed.

End GraphStore.

(** * Worked runs on the sample engine *)

(** C1 (evaluation). The decision ["ok"] of node [pick] is mapped to [None]
    explicitly, and the map also has a ["default"] entry: the engine takes
    the ["default"] entry and goes on to [B] instead of stopping at [pick]. *)
Theorem explicit_null_with_default_continues :
  pick_map !! "ok" = Some None
  ∧ conditional_next "pick" pick_map {["pick" := VStr "ok"]} = Returns (Some "B")
  ∧ run_ends sample_engine "graph_pick" ∅ 100 "r" completed None ["pick"; "B"]
      {["pick" := VStr "ok"; "done" := VBool true]}.
Proof.
  split; [by_eval|]. split; [by_eval|].
  refine (run_completes_at sample_engine pick_graph "graph_pick" ∅ 100 "r"
           _ 2
           (Run.mk "run_r" "graph_pick" running
                   {["pick" := VStr "ok"; "done" := VBool true]}
                   ["pick"; "B"] None) 2%Z _); by_eval.
Qed.

(** A node that raises after touching the state, and a limit of one on the
    two-node graph. *)
Lemma run_graph_contains_failures_witness :
  run_ends sample_engine "graph_boom" ∅ 100 "r" failed (Some "boom failed")
    ["A"; "boom"] {["seen" := VBool true]}
  ∧ run_ends sample_engine "graph_ab" ∅ 1 "r" failed
      (Some "Max iterations (1) exceeded; possible infinite loop") ["A"] ∅.
Proof.
  split.
  - refine (proj2 (run_graph_contains_failures sample_engine boom_graph
                           "graph_boom" ∅ 100 "r" _)
             1%nat (Run.mk "run_r" "graph_boom" running ∅ ["A"] None) "boom" 1%Z
             (failing_node "seen" "boom failed") {["seen" := VBool true]}
             (OtherException "boom failed") "boom failed"
             _ _ _ _ _ _); by_eval.
  - refine (proj1 (run_graph_contains_failures sample_engine ab_graph
                           "graph_ab" ∅ 1 "r" _)
             1%nat (Run.mk "run_r" "graph_ab" running ∅ ["A"] None) "B" 1%Z
             (Run.mk "run_r" "graph_ab" running ∅ ["A"] None)
             (EngineError "Max iterations (1) exceeded; possible infinite loop")
             "Max iterations (1) exceeded; possible infinite loop"
             _ _ _ _); by_eval.
Defined.

(** C2 (counterexample). A [SystemExit] raised by a node is not an
    [Exception]: it leaves [run_graph].  And the summary carries no
    description of a failure: two runs that fail with different descriptions
    return the same summary, the descriptions being recorded on the stored
    runs only. *)
Lemma run_graph_propagates_exit_and_summary_has_no_error :
  snd <$> run_graph halt_engine "graph_halt" ∅ 100 "r"
    = Some (Raises (BaseOnly "stop"))
  ∧ snd <$> run_graph sample_engine "graph_boom" ∅ 100 "r"
      = snd <$> run_graph other_boom_engine "graph_boom" ∅ 100 "r"
  ∧ run_ends sample_engine "graph_boom" ∅ 100 "r" failed (Some "boom failed")
      ["A"; "boom"] {["seen" := VBool true]}
  ∧ run_ends other_boom_engine "graph_boom" ∅ 100 "r" failed
      (Some "another failure") ["A"; "boom"] {["seen" := VBool true]}.
Proof.
  split; [by_eval|]. split; [by_eval|]. split.
  - refine (run_fails_at sample_engine boom_graph "graph_boom" ∅ 100 "r" _
              1%nat (Run.mk "run_r" "graph_boom" running ∅ ["A"] None) "boom" 1%Z
              (Run.mk "run_r" "graph_boom" running {["seen" := VBool true]}
                      ["A"; "boom"] None)
              (OtherException "boom failed") "boom failed" _ _ _ _); by_eval.
  - refine (run_fails_at other_boom_engine boom_graph "graph_boom" ∅ 100 "r" _
              1%nat (Run.mk "run_r" "graph_boom" running ∅ ["A"] None) "boom" 1%Z
              (Run.mk "run_r" "graph_boom" running {["seen" := VBool true]}
                      ["A"; "boom"] None)
              (OtherException "another failure") "another failure" _ _ _ _);
      by_eval.
Qed.

(** The log of a failing run still starts with the entry node. *)
Lemma execution_log_starts_at_entry_witness :
  ∃ self' r run,
    run_graph sample_engine "graph_boom" ∅ 100 "r" = Some (self', r)
    ∧ get_run self' "run_r" = Returns run
    ∧ head (Run.execution_log run) = Some "A"
    ∧ (∀ resp, r = Returns resp →
               head (GraphRunResponse.execution_log resp) = Some "A").
Proof.
  refine (execution_log_starts_at_entry sample_engine boom_graph "graph_boom" ∅ 100
           "r" _ _); by_eval.
Defined.

(** The node [check] never raises and always routes back to itself. *)
Lemma check_decides_for_itself (st : gmap string Value) :
  ∃ st', call_node (set_key "check" (VBool false)) st = (st', Returns tt)
         ∧ conditional_next "check" loop_map st' = Returns (Some "check").
Proof.
  exists (<["check" := VBool false]> st). split; [reflexivity|].
  unfold conditional_next. rewrite lookup_insert_eq. reflexivity.
Defined.

(** The self-routing graph with a limit of three. *)
Lemma self_loop_hits_iteration_limit_witness :
  ∃ log state err,
    run_ends sample_engine "graph_loop" ∅ 3 "r" failed (Some err) log state
    ∧ length log = 3%nat
    ∧ ((String.length (pretty (Z.abs 3)) ≤ int_max_str_digits)%nat →
       err = "Max iterations (3) exceeded; possible infinite loop").
Proof.
  refine (self_loop_hits_iteration_limit sample_engine loop_graph "graph_loop" ∅ 3 "r"
           _ 0%nat (new_run loop_graph ∅ "r") "check" 0%Z
           (set_key "check" (VBool false)) loop_map
           _ _ _ _
           check_decides_for_itself); by_eval.
Defined.

(** The node [idle] leaves no decision: without and with a ["default"] entry. *)
Lemma missing_decision_without_default_witness :
  run_ends sample_engine "graph_idle" ∅ 100 "r" failed
    (Some "Conditional node 'idle' did not set state['idle']; cannot decide next node")
    ["A"; "idle"] ∅
  ∧ ∃ run',
      iterations 2 sample_engine idle_default_graph 100
                 (new_run idle_default_graph ∅ "r") (Some "A") 0
        = Some (run', Some "B", 2%Z)
      ∧ Run.execution_log run' = ["A"; "idle"]
      ∧ Run.state run' = ∅.
Proof.
  split.
  - refine (proj1 (missing_decision_without_default sample_engine idle_graph
                     "graph_idle" ∅ 100 "r" _ 1%nat
                     (Run.mk "run_r" "graph_idle" running ∅ ["A"] None) "idle" 1%Z
                     idle_node ∅ idle_map _ _ _ _ _ _) _); by_eval.
  - refine (proj2 (missing_decision_without_default sample_engine idle_default_graph
                     "graph_idle_default" ∅ 100 "r" _ 1%nat
                     (Run.mk "run_r" "graph_idle_default" running ∅ ["A"] None)
                     "idle" 1%Z idle_node ∅ idle_default_map _ _ _ _ _ _)
                  (Some "B") _); by_eval.
Defined.

(** The node [blank] stores [None]: without and with a ["default"] entry. *)
Lemma none_decision_is_no_decision_witness :
  conditional_next "blank" idle_map {["blank" := VNone]}
    = conditional_next "blank" idle_map ∅
  ∧ run_ends sample_engine "graph_blank" ∅ 100 "r" failed
      (Some "Conditional node 'blank' did not set state['blank']; cannot decide next node")
      ["A"; "blank"] {["blank" := VNone]}
  ∧ ∃ run',
      iterations 2 sample_engine blank_default_graph 100
                 (new_run blank_default_graph ∅ "r") (Some "A") 0
        = Some (run', Some "B", 2%Z)
      ∧ Run.execution_log run' = ["A"; "blank"]
      ∧ Run.state run' = {["blank" := VNone]}.
Proof.
  split; [|split].
  - refine (proj1 (none_decision_is_no_decision sample_engine blank_graph
                     "graph_blank" ∅ 100 "r" _ 1%nat
                     (Run.mk "run_r" "graph_blank" running ∅ ["A"] None) "blank" 1%Z
                     (set_key "blank" VNone) {["blank" := VNone]} idle_map
                     _ _ _ _ _ _)); by_eval.
  - refine (proj1 (proj2 (none_decision_is_no_decision sample_engine blank_graph
                     "graph_blank" ∅ 100 "r" _ 1%nat
                     (Run.mk "run_r" "graph_blank" running ∅ ["A"] None) "blank" 1%Z
                     (set_key "blank" VNone) {["blank" := VNone]} idle_map
                     _ _ _ _ _ _)) _); by_eval.
  - refine (proj2 (proj2 (none_decision_is_no_decision sample_engine
                     blank_default_graph "graph_blank_default" ∅ 100 "r" _ 1%nat
                     (Run.mk "run_r" "graph_blank_default" running ∅ ["A"] None)
                     "blank" 1%Z (set_key "blank" VNone) {["blank" := VNone]}
                     idle_default_map _ _ _ _ _ _)) (Some "B") _); by_eval.
Defined.

(** The node [flag] decides [True] in a map that also has the keys ["True"]
    and ["1"]. *)
Lemma boolean_decision_uses_true_false_keys_witness :
  loop_body sample_engine flag_graph 100 (new_run flag_graph ∅ "r") "flag" 0
    = (Run.mk "run_r" "graph_flag" running {["flag" := VBool true]} ["flag"] None,
       Returns (Some "B", 1%Z))
  ∧ conditional_next "flag" {["true" := Some "B"]} {["flag" := VBool true]}
      = conditional_next "flag" flag_map {["flag" := VBool true]}.
Proof.
  split.
  - refine (proj1 (proj2 (proj2 (boolean_decision_uses_true_false_keys sample_engine
                     flag_graph 100 (new_run flag_graph ∅ "r") "flag" 0%Z
                     (set_key_in_place "flag" (VBool true)) {["flag" := VBool true]}
                     flag_map true _ _ _ _ _)))); by_eval.
  - refine (proj2 (proj2 (proj2 (boolean_decision_uses_true_false_keys sample_engine
                     flag_graph 100 (new_run flag_graph ∅ "r") "flag" 0%Z
                     (set_key_in_place "flag" (VBool true)) {["flag" := VBool true]}
                     flag_map true _ _ _ _ _))) {["true" := Some "B"]} _ _); by_eval.
Defined.




(** Both nodes of the two-node request are registered. *)
Lemma ab_nodes_registered n :
  n ∈ GraphCreateRequest.nodes ab_request →
  is_Some (node_registry (init sample_registry) !! n).
Proof.
  intros Hn. apply elem_of_cons in Hn as [->|Hn];
    [|apply elem_of_cons in Hn as [->|Hn]; [|by apply elem_of_nil in Hn]].
  - by exists identity_node.
  - by exists (set_key "done" (VBool true)).
Defined.

(** Storing and reading back the two-node graph. *)
Lemma create_then_get_graph_witness :
  ∃ self' g,
    create_graph repr_plain (init sample_registry) ab_request "0" = (self', Returns g)
    ∧ get_graph self' (Graph.id g) = Returns g
    ∧ Graph.entry_node g = "A"
    ∧ Graph.nodes g = ["A"; "B"]
    ∧ Graph.edges g = {["A" := Some "B"]}
    ∧ Graph.conditional_edges g = ∅.
Proof.
  refine (create_then_get_graph repr_plain (init sample_registry) ab_request "0"
            ab_nodes_registered _).
  by left.
Defined.

(** A request with two unregistered nodes, and one with a bad entry node. *)
Lemma create_graph_unknown_nodes_witness :
  create_graph repr_plain (init sample_registry) bad_request "0"
    = (init sample_registry,
       Raises (EngineError "Nodes not found in registry: ['X', 'Y']"))
  ∧ (create_graph repr_plain (init sample_registry) bad_entry_request "0").1
      = init sample_registry
  ∧ get_graph (create_graph repr_plain (init sample_registry) bad_entry_request "0").1
              "graph_0"
      = Raises (EngineError "Graph not found: graph_0").
Proof.
  split.
  - refine (proj1 (proj2 (create_graph_unknown_nodes repr_plain
                            (init sample_registry) bad_request "0")) _).
    exists "X". split; [|by_eval]. right. by left.
  - destruct (proj2 (proj2 (create_graph_unknown_nodes repr_plain
                              (init sample_registry) bad_entry_request "0"))
                (create_graph repr_plain (init sample_registry) bad_entry_request "0").1
                (EngineError "entry_node 'Z' is not listed in nodes"))
      as [Hsame Hget]; [by_eval|].
    split; [exact Hsame|]. rewrite Hsame. apply Hget. by_eval.
Defined.

(** * Further properties of the executor *)

Section RunInvariants.
Variables (self : WorkflowEngine) (graph : Graph.t) (max_iterations : Z).

Lemma conditional_next_target node (cond_map : gmap string (option string))
    (state : gmap string Value) b :
  conditional_next node cond_map state = Returns (Some b) →
  ∃ key, cond_map !! key = Some (Some b).
Proof.
  unfold conditional_next.
  destruct (decision_key _ _ _) as [key|e]; [|done].
  unfold dict_get. case_bool_decide as H; intros [= Hb].
  - exists "default". by destruct (cond_map !! "default") as [[?|]|]; simplify_eq/=.
  - exists key. by destruct (cond_map !! key) as [[?|]|]; simplify_eq/=.
Qed.

(** An iteration that ends normally ran a registered node, logged it, and
    moves on along an edge of the graph. *)
Lemma loop_body_returns_inv run node i run' next_node i' :
  loop_body self graph max_iterations run node i = (run', Returns (next_node, i')) →
  is_Some (node_registry self !! node)
  ∧ Run.execution_log run' = Run.execution_log run ++ [node]
  ∧ (∀ b, next_node = Some b → transition graph node b).
Proof.
  intros Hb.
  pose proof (loop_body_returns _ _ _ _ _ _ _ _ _ Hb) as [-> Hi].
  pose proof (loop_body_log _ _ _ _ _ _ _ _ Hi Hb) as Hlog.
  split; [|split; [done|]]; revert Hb; unfold loop_body, transition;
    rewrite bool_decide_eq_false_2 by lia;
    destruct (node_registry self !! node) as [fn|]; try done; cbn;
    destruct (call_node fn (Run.state run)) as [st [[]|e]]; try done.
  destruct (Graph.conditional_edges graph !! node) as [cm|].
  - destruct (conditional_next node cm _) as [nx|] eqn:Hnx; [|done].
    intros [= _ ->] b ->. by eapply conditional_next_target.
  - intros [= _ <-] b Hb. unfold dict_get in Hb.
    by destruct (Graph.edges graph !! node) as [[?|]|]; simplify_eq/=.
Qed.

(** An iteration that raises leaves the log as it was or with the node added. *)
Lemma loop_body_raises_log run node i run' e :
  loop_body self graph max_iterations run node i = (run', Raises e) →
  Run.execution_log run' = Run.execution_log run
  ∨ Run.execution_log run' = Run.execution_log run ++ [node].
Proof.
  intros Hb. destruct (decide (i + 1 ≤ max_iterations)%Z) as [Hi|Hi].
  - right. by eapply loop_body_log.
  - left. rewrite loop_body_limit in Hb by lia. by injection Hb as <- _.
Qed.

Lemma follows_edges_snoc log node :
  follows_edges graph log →
  (∀ a, last log = Some a → transition graph a node) →
  follows_edges graph (log ++ [node]).
Proof.
  induction log as [|a [|b rest] IH]; intros Hlog Hlast; cbn in *.
  - done.
  - split; [|done]. by apply Hlast.
  - destruct Hlog as [Hab Hrest]. split; [done|]. by apply IH.
Qed.

Lemma run_loop_follows_edges fuel run current_node i run' o :
  run_loop fuel self graph max_iterations run current_node i = Some (run', o) →
  follows_edges graph (Run.execution_log run) →
  (∀ a c, last (Run.execution_log run) = Some a → current_node = Some c →
          transition graph a c) →
  follows_edges graph (Run.execution_log run').
Proof.
  revert run current_node i.
  induction fuel as [|fuel IH]; intros run current_node i Hr Hlog Hcur.
  - destruct current_node; [done|]. by injection Hr as <- _.
  - destruct current_node as [node|]; cbn in Hr; [|by injection Hr as <- _].
    destruct (loop_body self graph max_iterations run node i)
      as [run1 [[next_node i1]|e]] eqn:Hb.
    + destruct (loop_body_returns_inv _ _ _ _ _ _ Hb) as (_ & Hlog1 & Hnext).
      apply IH in Hr; [done| |]; rewrite Hlog1.
      * apply follows_edges_snoc; [done|]. intros a Ha. by eapply Hcur.
      * intros a c Ha ->. rewrite last_snoc in Ha. injection Ha as <-.
        by apply Hnext.
    + injection Hr as <- _.
      destruct (loop_body_raises_log _ _ _ _ _ Hb) as [->| ->]; [done|].
      apply follows_edges_snoc; [done|]. intros a Ha. by eapply Hcur.
Qed.

Lemma run_loop_log_length fuel run current_node i run' o :
  run_loop fuel self graph max_iterations run current_node i = Some (run', o) →
  Z.of_nat (length (Run.execution_log run)) = i →
  (i ≤ Z.max 0 max_iterations)%Z →
  (Z.of_nat (length (Run.execution_log run')) ≤ Z.max 0 max_iterations)%Z.
Proof.
  revert run current_node i.
  induction fuel as [|fuel IH]; intros run current_node i Hr Hlen Hi.
  - destruct current_node; [done|]. injection Hr as <- _. lia.
  - destruct current_node as [node|]; cbn in Hr; [|injection Hr as <- _; lia].
    destruct (loop_body self graph max_iterations run node i)
      as [run1 [[next_node i1]|e]] eqn:Hb.
    + pose proof (loop_body_returns _ _ _ _ _ _ _ _ _ Hb) as [-> Hle].
      pose proof (loop_body_log _ _ _ _ _ _ _ _ Hle Hb) as Hlog1.
      apply IH in Hr; [done| |lia]. rewrite Hlog1, length_app. cbn. lia.
    + injection Hr as <- _.
      destruct (decide (i + 1 ≤ max_iterations)%Z) as [Hle|Hgt].
      * rewrite (loop_body_log _ _ _ _ _ _ _ _ Hle Hb), length_app. cbn. lia.
      * rewrite loop_body_limit in Hb by lia. injection Hb as <- _. lia.
Qed.

Lemma run_loop_registered fuel run current_node i run' o :
  run_loop fuel self graph max_iterations run current_node i = Some (run', o) →
  (∀ n, n ∈ Run.execution_log run → is_Some (node_registry self !! n)) →
  ∃ log last_node,
    (∀ n, n ∈ log → is_Some (node_registry self !! n))
    ∧ (Run.execution_log run' = log
       ∨ (Run.execution_log run' = log ++ [last_node] ∧ ∃ e, o = Raises e)).
Proof.
  revert run current_node i.
  induction fuel as [|fuel IH]; intros run current_node i Hr Hreg.
  - destruct current_node; [done|]. injection Hr as <- _.
    exists (Run.execution_log run), "". auto.
  - destruct current_node as [node|]; cbn in Hr.
    2:{ injection Hr as <- _. exists (Run.execution_log run), "". auto. }
    destruct (loop_body self graph max_iterations run node i)
      as [run1 [[next_node i1]|e]] eqn:Hb.
    + destruct (loop_body_returns_inv _ _ _ _ _ _ Hb) as (Hnode & Hlog1 & _).
      apply IH in Hr; [done|]. rewrite Hlog1. intros n Hn.
      apply elem_of_app in Hn as [Hn|Hn]; [by apply Hreg|].
      apply list_elem_of_singleton in Hn as ->. done.
    + injection Hr as <- <-. exists (Run.execution_log run), node.
      split; [done|].
      destruct (loop_body_raises_log _ _ _ _ _ Hb) as [->| ->]; eauto.
Qed.

End RunInvariants.
(** What [finish] leaves alone, and what it sets when no exception is left. *)
Lemma finish_fields run o :
  Run.id (finish run o).1 = Run.id run
  ∧ Run.graph_id (finish run o).1 = Run.graph_id run
  ∧ Run.execution_log (finish run o).1 = Run.execution_log run
  ∧ Run.state (finish run o).1 = Run.state run.
Proof.
  unfold finish. destruct o as [[]|e]; [done|].
  destruct (is_exception e); [|done]. by destruct (str_of_exception e).
Qed.

Lemma finish_returns run o u :
  (finish run o).2 = Returns u →
  (o = Returns tt ∧ Run.status (finish run o).1 = completed
   ∧ Run.error (finish run o).1 = Run.error run)
  ∨ ((∃ e, o = Raises e) ∧ Run.status (finish run o).1 = failed
     ∧ ∃ message, Run.error (finish run o).1 = Some message).
Proof.
  unfold finish. destruct o as [[]|e]; [by left|].
  destruct (is_exception e); [|done].
  destruct (str_of_exception e) as [message|e']; [|done].
  intros _. right. cbn. eauto.
Qed.

Section RunGraphMore.
Variables (self : WorkflowEngine) (graph : Graph.t) (graph_id : GraphId).
Variables (initial_state : State) (max_iterations : Z) (uuid_hex : string).
Hypothesis stored : graphs self !! graph_id = Some graph.

(** The loop of a run always ends. *)
Lemma run_graph_loop_ends :
  ∃ run o,
    run_loop (S (Z.to_nat max_iterations)) self graph max_iterations
             (new_run graph initial_state uuid_hex)
             (Some (Graph.entry_node graph)) 0 = Some (run, o).
Proof.
  destruct (run_loop_total self graph max_iterations (S (Z.to_nat max_iterations))
              (new_run graph initial_state uuid_hex)
              (Some (Graph.entry_node graph)) 0) as [[run o] Hr]; [lia|].
  by exists run, o.
Qed.

(** What [run_graph] does for a stored graph, in terms of the loop. *)
Lemma run_graph_stored_inv r :
  run_graph self graph_id initial_state max_iterations uuid_hex = Some r →
  ∃ run o,
    run_loop (S (Z.to_nat max_iterations)) self graph max_iterations
             (new_run graph initial_state uuid_hex)
             (Some (Graph.entry_node graph)) 0 = Some (run, o)
    ∧ r = (store_run self (finish run o).1,
           match (finish run o).2 with
           | Returns _ => Returns (response_of (finish run o).1)
           | Raises e => Raises e
           end).
Proof.
  intros Hrun. destruct run_graph_loop_ends as (run & o & Hloop).
  exists run, o. split; [done|].
  rewrite (run_graph_of_loop _ _ _ _ _ _ stored _ _ _ Hloop) in Hrun.
  by injection Hrun as <-.
Qed.

(** [run_graph] on a stored graph ends, with a summary or an exception. *)
Lemma run_graph_total :
  ∃ self' r,
    run_graph self graph_id initial_state max_iterations uuid_hex = Some (self', r).
Proof.
  destruct run_graph_loop_ends as (run & o & Hloop).
  rewrite (run_graph_of_loop _ _ _ _ _ _ stored _ _ _ Hloop). by eexists _, _.
Qed.

(** A summary is that of the finished run object. *)
Lemma run_graph_summary_inv self' resp :
  run_graph self graph_id initial_state max_iterations uuid_hex
    = Some (self', Returns resp) →
  ∃ run o u,
    run_loop (S (Z.to_nat max_iterations)) self graph max_iterations
             (new_run graph initial_state uuid_hex)
             (Some (Graph.entry_node graph)) 0 = Some (run, o)
    ∧ (finish run o).2 = Returns u
    ∧ self' = store_run self (finish run o).1
    ∧ resp = response_of (finish run o).1.
Proof.
  intros Hrun. apply run_graph_stored_inv in Hrun as (run & o & Hloop & Hr).
  exists run, o. destruct (finish run o).2 as [u|e] eqn:Hfin; [|done].
  exists u. by injection Hr as -> ->.
Qed.

Lemma run_graph_log_bound self' resp :
  run_graph self graph_id initial_state max_iterations uuid_hex
    = Some (self', Returns resp) →
  (length (GraphRunResponse.execution_log resp) ≤ Z.to_nat max_iterations)%nat
  ∧ (GraphRunResponse.status resp = completed
     ∨ GraphRunResponse.status resp = failed).
Proof.
  intros Hrun.
  apply run_graph_summary_inv in Hrun as (run & o & u & Hloop & Hfin & -> & ->).
  apply run_loop_log_length in Hloop; [|done|lia].
  destruct (finish_fields run o) as (_ & _ & Hlog & _).
  split; [cbn; rewrite Hlog; lia|].
  cbn. destruct (finish_returns _ _ _ Hfin) as [(_ & -> & _)|(_ & -> & _)]; auto.
Qed.


(** X1. The log never has more entries than the iteration limit allows. *)
Theorem execution_log_bounded self' resp :
  run_graph self graph_id initial_state max_iterations uuid_hex
    = Some (self', Returns resp) →
  (length (GraphRunResponse.execution_log resp) ≤ Z.to_nat max_iterations)%nat.
Proof. intros Hrun. by apply run_graph_log_bound in Hrun as [? _]. Qed.

(** X2. Every step recorded in the log is an edge of the graph. *)
Theorem execution_log_follows_edges self' resp :
  run_graph self graph_id initial_state max_iterations uuid_hex
    = Some (self', Returns resp) →
  follows_edges graph (GraphRunResponse.execution_log resp).
Proof.
  intros Hrun.
  apply run_graph_summary_inv in Hrun as (run & o & u & Hloop & Hfin & -> & ->).
  apply run_loop_follows_edges in Hloop; [|done|done].
  destruct (finish_fields run o) as (_ & _ & Hlog & _). cbn. by rewrite Hlog.
Qed.

(** X3. A completed run only went through registered nodes; a failed one
    through registered nodes except possibly the last one logged. *)
Theorem logged_nodes_registered self' resp :
  run_graph self graph_id initial_state max_iterations uuid_hex
    = Some (self', Returns resp) →
  ∃ log last_node,
    (∀ n, n ∈ log → is_Some (node_registry self !! n))
    ∧ (GraphRunResponse.execution_log resp = log
       ∨ (GraphRunResponse.execution_log resp = log ++ [last_node]
          ∧ GraphRunResponse.status resp = failed)).
Proof.
  intros Hrun.
  apply run_graph_summary_inv in Hrun as (run & o & u & Hloop & Hfin & -> & ->).
  apply run_loop_registered in Hloop as (log & last_node & Hreg & Hlog).
  2:{ intros n Hn. by apply elem_of_nil in Hn. }
  destruct (finish_fields run o) as (_ & _ & Hflog & _).
  exists log, last_node. split; [done|]. cbn. rewrite Hflog.
  destruct Hlog as [Hlog|[Hlog [e ->]]]; [by left|right].
  split; [done|].
  by destruct (finish_returns _ _ _ Hfin) as [([=] & _)|(_ & -> & _)].
Qed.


Lemma run_state_agrees self' resp :
  run_graph self graph_id initial_state max_iterations uuid_hex
    = Some (self', Returns resp) →
  ∃ st,
    get_run_state_response self' (GraphRunResponse.run_id resp) = Returns st
    ∧ RunStateResponse.run_id st = GraphRunResponse.run_id resp
    ∧ RunStateResponse.graph_id st = Graph.id graph
    ∧ RunStateResponse.status st = GraphRunResponse.status resp
    ∧ RunStateResponse.state st = GraphRunResponse.final_state resp
    ∧ RunStateResponse.execution_log st = GraphRunResponse.execution_log resp
    ∧ (RunStateResponse.status st = completed ∨ RunStateResponse.status st = failed)
    ∧ (RunStateResponse.error st = None ↔ RunStateResponse.status st = completed).
Proof.
  intros Hrun.
  apply run_graph_summary_inv in Hrun as (run & o & u & Hloop & Hfin & -> & ->).
  apply run_loop_log_prefix in Hloop as [_ (Hid & Hgid & _ & Herr)].
  destruct (finish_fields run o) as (_ & Hfgid & _ & _).
  unfold get_run_state_response, get_run, store_run. cbn.
  rewrite lookup_insert_eq. eexists. split; [reflexivity|]. cbn.
  split; [done|]. split; [rewrite Hfgid, Hgid; reflexivity|].
  do 3 (split; [done|]).
  destruct (finish_returns _ _ _ Hfin) as [(_ & -> & ->)|(_ & -> & m & ->)].
  - rewrite Herr. cbn. split; [by left|]. by split.
  - split; [by right|]. by split.
Qed.

(** X5. The state of a run, fetched after [run_graph], agrees with the
    summary [run_graph] returned, and carries an error exactly when the run
    failed. *)
Theorem run_then_get_run_state self' resp :
  run_graph self graph_id initial_state max_iterations uuid_hex
    = Some (self', Returns resp) →
  ∃ st,
    get_run_state_response self' (GraphRunResponse.run_id resp) = Returns st
    ∧ RunStateResponse.run_id st = GraphRunResponse.run_id resp
    ∧ RunStateResponse.graph_id st = Graph.id graph
    ∧ RunStateResponse.status st = GraphRunResponse.status resp
    ∧ RunStateResponse.state st = GraphRunResponse.final_state resp
    ∧ RunStateResponse.execution_log st = GraphRunResponse.execution_log resp
    ∧ (RunStateResponse.status st = completed ∨ RunStateResponse.status st = failed)
    ∧ (RunStateResponse.error st = None ↔ RunStateResponse.status st = completed).
Proof. apply run_state_agrees. Qed.


(** X7. A run that arrives at a node missing from the registry fails there:
    the node is logged, the state is left as it was, and the error names the
    node. *)
Theorem unregistered_node_fails_run k run node i :
  arrives self graph max_iterations initial_state uuid_hex k run node i →
  (i + 1 ≤ max_iterations)%Z →
  node_registry self !! node = None →
  run_ends self graph_id initial_state max_iterations uuid_hex failed
    (Some ("Node function not found in registry: " +:+ node))
    (Run.execution_log run ++ [node]) (Run.state run).
Proof.
  intros Harr Hi Hreg.
  assert (loop_body self graph max_iterations run node i
          = (Run.set_execution_log (Run.execution_log run ++ [node]) run,
             Raises (EngineError ("Node function not found in registry: " +:+ node))))
    as Hb.
  { unfold loop_body. rewrite bool_decide_eq_false_2 by lia. by rewrite Hreg. }
  exact (run_fails_at self graph graph_id initial_state max_iterations uuid_hex
           stored k run node i _ _ _ Harr Hb eq_refl eq_refl).
Qed.

End RunGraphMore.

Section EdgesOverride.
Variables (self : WorkflowEngine) (g1 g2 : Graph.t) (max_iterations : Z).
Hypothesis same_conditional :
  Graph.conditional_edges g1 = Graph.conditional_edges g2.
Hypothesis same_linear :
  ∀ n, Graph.conditional_edges g1 !! n = None →
       dict_get (Graph.edges g1) n = dict_get (Graph.edges g2) n.

Lemma loop_body_same_edges run node i :
  loop_body self g1 max_iterations run node i
    = loop_body self g2 max_iterations run node i.
Proof.
  unfold loop_body. case_bool_decide; [done|].
  destruct (node_registry self !! node) as [fn|]; [|done]. cbn.
  destruct (call_node fn (Run.state run)) as [st [[]|e]]; [|done].
  rewrite <- same_conditional.
  destruct (Graph.conditional_edges g1 !! node) as [cm|] eqn:Hcm; [done|].
  by rewrite (same_linear node Hcm).
Qed.

Lemma run_loop_same_edges fuel run current_node i :
  run_loop fuel self g1 max_iterations run current_node i
    = run_loop fuel self g2 max_iterations run current_node i.
Proof.
  revert run current_node i.
  induction fuel as [|fuel IH]; intros run current_node i; [done|].
  destruct current_node as [node|]; [|done]. cbn.
  rewrite loop_body_same_edges.
  by destruct (loop_body self g2 max_iterations run node i) as [run1 [[nx i1]|e]].
Qed.

End EdgesOverride.

(** The loop reads the engine only through its node registry. *)
Lemma run_loop_same_registry (self1 self2 : WorkflowEngine) graph max_iterations
    fuel run current_node i :
  node_registry self1 = node_registry self2 →
  run_loop fuel self1 graph max_iterations run current_node i
    = run_loop fuel self2 graph max_iterations run current_node i.
Proof.
  intros Hreg. revert run current_node i.
  induction fuel as [|fuel IH]; intros run current_node i; [done|].
  destruct current_node as [node|]; [|done]. cbn.
  assert (loop_body self1 graph max_iterations run node i
          = loop_body self2 graph max_iterations run node i) as ->
    by (unfold loop_body; by rewrite Hreg).
  by destruct (loop_body self2 graph max_iterations run node i) as [r1 [[nx i1]|e]].
Qed.

(** X8. The linear edge of a conditional node is never read, and an edge
    mapped to [None] is the same as no edge: two stored graphs with the same
    id, entry node and conditional edges, whose linear edges lead to the same
    node from every node that is not conditional, give the same summary. *)
Theorem conditional_edges_override_linear self (g1 g2 : Graph.t) graph_id
    (initial_state : gmap string Value) max_iterations uuid_hex :
  graphs self !! graph_id = Some g1 →
  Graph.id g2 = Graph.id g1 →
  Graph.entry_node g2 = Graph.entry_node g1 →
  Graph.conditional_edges g1 = Graph.conditional_edges g2 →
  (∀ n, Graph.conditional_edges g1 !! n = None →
        dict_get (Graph.edges g1) n = dict_get (Graph.edges g2) n) →
  snd <$> run_graph (mkEngine (node_registry self)
                              (<[graph_id := g2]> (graphs self)) (runs self))
                    graph_id initial_state max_iterations uuid_hex
  = snd <$> run_graph self graph_id initial_state max_iterations uuid_hex.
Proof.
  intros Hstored Hid Hentry Hcond Hlin.
  unfold run_graph, get_graph. cbn [graphs].
  rewrite lookup_insert_eq, Hstored.
  unfold new_run. rewrite Hid, Hentry.
  rewrite <- (run_loop_same_edges _ g1 g2 max_iterations Hcond Hlin).
  rewrite (run_loop_same_registry _ self) by done.
  destruct (run_loop _ _ _ _ _ _ _) as [[run [[]|e]]|]; [done| |done].
  destruct (is_exception e); [|done]. by destruct (str_of_exception e).
Qed.

(** * Further properties of the graph store *)

Section GraphStoreMore.
Variable repr_names : list NodeName → string.

(** X9. [create_graph] stores a graph exactly when every node of the request
    is registered and the entry node is one of them; edges and conditional
    edges are not looked at. *)
Theorem create_graph_succeeds_iff self payload uuid_hex :
  (∃ self' g, create_graph repr_names self payload uuid_hex = (self', Returns g))
  ↔ (∀ n, n ∈ GraphCreateRequest.nodes payload →
          is_Some (node_registry self !! n))
    ∧ GraphCreateRequest.entry_node payload ∈ GraphCreateRequest.nodes payload.
Proof.
  split.
  - intros (self' & g & Hc). unfold create_graph in Hc.
    destruct (filter _ _) as [|m missing] eqn:Hmissing; [|done].
    case_bool_decide as Hentry; [|done]. split; [|done].
    intros n Hn. destruct (node_registry self !! n) as [fn|] eqn:Hfn; [by eexists|].
    exfalso. by apply (filter_nil_not_elem_of _ _ n Hmissing Hfn).
  - intros [Hreg Hentry]. unfold create_graph.
    rewrite (missing_nil _ _ Hreg). cbn.
    rewrite bool_decide_eq_true_2 by done. by eexists _, _.
Qed.

(** X10. A request whose nodes are all registered but whose entry node is not
    among them is rejected with the entry-node error, and nothing is stored. *)
Theorem create_graph_entry_not_listed self payload uuid_hex :
  (∀ n, n ∈ GraphCreateRequest.nodes payload →
        is_Some (node_registry self !! n)) →
  GraphCreateRequest.entry_node payload ∉ GraphCreateRequest.nodes payload →
  create_graph repr_names self payload uuid_hex
    = (self, Raises (EngineError ("entry_node '"
                                    +:+ GraphCreateRequest.entry_node payload
                                    +:+ "' is not listed in nodes"))).
Proof.
  intros Hreg Hentry. unfold create_graph.
  rewrite (missing_nil _ _ Hreg). cbn.
  by rewrite bool_decide_eq_false_2.
Qed.

(** X11. A successful [create_graph] stores the graph under ["graph_" + uuid]
    and leaves the registry, the runs and every other stored graph as they
    were. *)
Theorem create_graph_frame self payload uuid_hex self' g :
  create_graph repr_names self payload uuid_hex = (self', Returns g) →
  Graph.id g = "graph_" +:+ uuid_hex
  ∧ node_registry self' = node_registry self
  ∧ runs self' = runs self
  ∧ (∀ graph_id, graph_id ≠ Graph.id g →
                 get_graph self' graph_id = get_graph self graph_id).
Proof.
  unfold create_graph.
  destruct (filter _ _) as [|m missing]; [|done].
  case_bool_decide; [|done]. intros [= <- <-]. cbn.
  repeat split. intros graph_id Hne. unfold get_graph. cbn.
  by rewrite lookup_insert_ne.
Qed.

End GraphStoreMore.

(** * Properties of the registry (app/registry.py) *)

Section Registry.
Context {Tool : Type}.
Implicit Types regs : Registries Tool.

Lemma register_fresh name func regs :
  NODE_REGISTRY regs !! name = None →
  ∃ regs',
    register name func regs = (regs', Done func)
    ∧ get_node regs' name = Done func
    ∧ (∀ other, other ≠ name → get_node regs' other = get_node regs other)
    ∧ TOOL_REGISTRY regs' = TOOL_REGISTRY regs.
Proof.
  intros Hfree. unfold register.
  rewrite bool_decide_eq_false_2 by (rewrite Hfree; by intros [? ?]).
  eexists. split; [reflexivity|]. unfold get_node. cbn.
  rewrite lookup_insert_eq. repeat split.
  intros other Hne. by rewrite lookup_insert_ne.
Qed.

(** X12. Registering a node under an unused name succeeds; [get_node] then
    returns that function, every other name resolves as before, and the tool
    registry is untouched. *)
Theorem register_then_get_node name func regs :
  NODE_REGISTRY regs !! name = None →
  ∃ regs',
    register name func regs = (regs', Done func)
    ∧ get_node regs' name = Done func
    ∧ (∀ other, other ≠ name → get_node regs' other = get_node regs other)
    ∧ TOOL_REGISTRY regs' = TOOL_REGISTRY regs.
Proof. apply register_fresh. Qed.

(** X13. Registering a node under a name already taken raises [ValueError]
    and changes nothing: the name keeps its first function. *)
Theorem register_duplicate_rejected name func first regs :
  NODE_REGISTRY regs !! name = Some first →
  register name func regs
    = (regs, Fails (ValueError ("Node '" +:+ name +:+ "' is already registered")))
  ∧ get_node (register name func regs).1 name = Done first.
Proof.
  intros Htaken. unfold register.
  rewrite bool_decide_eq_true_2 by (rewrite Htaken; by eexists).
  split; [done|]. unfold get_node. cbn. by rewrite Htaken.
Qed.

(** X14. The same for tools: a tool registered under an unused name is what
    [get_tool] returns, without touching the nodes or other tools, and a
    second registration under a taken name raises [ValueError] and changes
    nothing. *)
Theorem register_tool_then_get_tool name (func : Tool) regs :
  (TOOL_REGISTRY regs !! name = None →
   ∃ regs',
     register_tool name func regs = (regs', Done func)
     ∧ get_tool regs' name = Done func
     ∧ (∀ other, other ≠ name → get_tool regs' other = get_tool regs other)
     ∧ NODE_REGISTRY regs' = NODE_REGISTRY regs)
  ∧ (∀ first, TOOL_REGISTRY regs !! name = Some first →
     register_tool name func regs
       = (regs, Fails (ValueError ("Tool '" +:+ name +:+ "' is already registered")))).
Proof.
  split.
  - intros Hfree. unfold register_tool.
    rewrite bool_decide_eq_false_2 by (rewrite Hfree; by intros [? ?]).
    eexists. split; [reflexivity|]. unfold get_tool. cbn.
    rewrite lookup_insert_eq. repeat split.
    intros other Hne. by rewrite lookup_insert_ne.
  - intros first Htaken. unfold register_tool.
    by rewrite bool_decide_eq_true_2 by (rewrite Htaken; by eexists).
Qed.

(** X15. A module whose decorators use pairwise different names, none of them
    taken, registers all its functions: each name then resolves to its
    function and the names registered before resolve as before. *)
Theorem register_all_distinct (funcs : list (string * NodeFn)) regs :
  NoDup funcs.*1 →
  (∀ name, name ∈ funcs.*1 → NODE_REGISTRY regs !! name = None) →
  ∃ regs',
    register_all funcs regs = (regs', Done tt)
    ∧ (∀ name func, (name, func) ∈ funcs → get_node regs' name = Done func)
    ∧ (∀ name, name ∉ funcs.*1 → get_node regs' name = get_node regs name)
    ∧ TOOL_REGISTRY regs' = TOOL_REGISTRY regs.
Proof.
  revert regs. induction funcs as [|[name func] funcs IH]; intros regs Hnodup Hfree.
  - exists regs. split; [done|]. split; [|done].
    intros name func Hin. by apply elem_of_nil in Hin.
  - cbn in Hnodup. apply NoDup_cons in Hnodup as [Hname Hnodup].
    destruct (register_fresh name func regs (Hfree name ltac:(left)))
      as (regs1 & Hreg1 & Hget1 & Hother1 & Htools1).
    destruct (IH regs1 Hnodup) as (regs' & Hall & Hget & Hother & Htools).
    { intros other Hother.
      assert (other ≠ name) as Hne by (intros ->; done).
      specialize (Hother1 other Hne). unfold get_node in Hother1.
      rewrite (Hfree other ltac:(by right)) in Hother1.
      by destruct (NODE_REGISTRY regs1 !! other). }
    exists regs'. cbn [register_all]. rewrite Hreg1. split; [done|].
    split; [|split; [|congruence]].
    + intros name' func' Hin. apply elem_of_cons in Hin as [[= -> ->]|Hin].
      * by rewrite (Hother name Hname).
      * by apply Hget.
    + intros other Hnot. cbn in Hnot. apply not_elem_of_cons in Hnot as [Hne Hnot].
      rewrite (Hother other Hnot). by apply Hother1.
Qed.

End Registry.
(** * Decisions that are neither booleans nor missing *)

(** X16. A decision value that is neither [None] nor a boolean is looked up
    under the text [str] gives for it (a string under itself, an integer
    under its decimal digits), with the ["default"] entry as the fallback;
    when [str] raises, the run fails with that exception. *)
Theorem other_decision_uses_str self graph max_iterations run node i node_fn
    (state : gmap string Value) (cond_map : gmap string (option string)) v :
  (i + 1 ≤ max_iterations)%Z →
  node_registry self !! node = Some node_fn →
  call_node node_fn (Run.state run) = (state, Returns tt) →
  Graph.conditional_edges graph !! node = Some cond_map →
  state !! node = Some v →
  v ≠ VNone → (∀ b, v ≠ VBool b) →
  loop_body self graph max_iterations run node i
    = (Run.set_state state
         (Run.set_execution_log (Run.execution_log run ++ [node]) run),
       match py_str v with
       | Returns key =>
           Returns (match cond_map !! key with
                    | Some (Some target) => Some target
                    | _ => dict_get cond_map "default"
                    end, (i + 1)%Z)
       | Raises e => Raises e
       end).
Proof.
  intros Hi Hreg Hcall Hcm Hv Hnone Hbool.
  rewrite (loop_body_conditional self graph max_iterations run node i
             node_fn state cond_map Hi Hreg Hcall Hcm).
  f_equal.
  assert (decision_key node cond_map (default VNone (state !! node)) = py_str v)
    as Hkey.
  { rewrite Hv. cbn. destruct v; try done. by destruct (Hbool b). }
  destruct (py_str v) as [key|e] eqn:Hstr.
  - by rewrite (conditional_next_key node cond_map state key Hkey).
  - unfold conditional_next. by rewrite Hkey.
Qed.

(** * Properties of the route handlers (app/main.py) *)

Section Handlers.
Variable repr_names : list NodeName → string.

(** X17. [POST /graph/create] answers with the new graph id when every node
    of the request is registered and the entry node is among them, and with
    status 400 otherwise, leaving the engine as it was; it never answers
    500. *)
Theorem http_create_graph_outcomes engine payload uuid_hex :
  ((∀ n, n ∈ GraphCreateRequest.nodes payload →
         is_Some (node_registry engine !! n))
   ∧ GraphCreateRequest.entry_node payload ∈ GraphCreateRequest.nodes payload →
   ∃ engine',
     main.create_graph repr_names engine payload uuid_hex
       = (engine', Response (GraphCreateResponse.mk ("graph_" +:+ uuid_hex)))
     ∧ is_Some (graphs engine' !! ("graph_" +:+ uuid_hex)))
  ∧ (¬ ((∀ n, n ∈ GraphCreateRequest.nodes payload →
              is_Some (node_registry engine !! n))
        ∧ GraphCreateRequest.entry_node payload ∈ GraphCreateRequest.nodes payload) →
     ∃ detail,
       main.create_graph repr_names engine payload uuid_hex
         = (engine, HTTPException 400 detail)).
Proof.
  split.
  - intros [Hreg Hentry]. unfold main.create_graph, create_graph.
    rewrite (missing_nil _ _ Hreg). cbn.
    rewrite bool_decide_eq_true_2 by done.
    eexists. split; [reflexivity|]. cbn. rewrite lookup_insert_eq. by eexists.
  - intros Hinvalid. unfold main.create_graph, create_graph.
    destruct (filter _ _) as [|m missing] eqn:Hmissing; [|by eexists].
    cbn. case_bool_decide as Hentry; [|by eexists].
    exfalso. apply Hinvalid. split; [|done].
    intros n Hn. destruct (node_registry engine !! n) as [fn|] eqn:Hfn; [by eexists|].
    exfalso. by apply (filter_nil_not_elem_of _ _ n Hmissing Hfn).
Qed.

(** A loop that ends with an exception raised it in an iteration the run
    arrived at. *)
Lemma run_loop_raises_inv self graph max_iterations fuel run current_node i run' e :
  run_loop fuel self graph max_iterations run current_node i = Some (run', Raises e) →
  ∃ k run0 node i0,
    iterations k self graph max_iterations run current_node i
      = Some (run0, Some node, i0)
    ∧ loop_body self graph max_iterations run0 node i0 = (run', Raises e).
Proof.
  revert run current_node i.
  induction fuel as [|fuel IH]; intros run current_node i Hr.
  - by destruct current_node.
  - destruct current_node as [node|]; [|done]. cbn in Hr.
    destruct (loop_body self graph max_iterations run node i)
      as [run1 [[next_node i1]|e1]] eqn:Hb.
    + apply IH in Hr as (k & run0 & node0 & i0 & Hk & Hb0).
      exists (S k), run0, node0, i0. split; [|done]. cbn. by rewrite Hb.
    + injection Hr as <- <-. by exists 0%nat, run, node, i.
Qed.

(** A handler's error branch never produces a response body. *)
Lemma handle_error_not_response {A : Type} status_code e (body : A) :
  handle_error status_code e ≠ Response body.
Proof.
  unfold handle_error.
  destruct (is_engine_error e); [by destruct (str_of_exception e)|].
  destruct (is_exception e); [by destruct (str_of_exception e)|done].
Qed.


(** X18. [POST /graph/run] answers 400 when the graph id is unknown, storing
    no run.  For a stored graph it ends; a summary it answers with has
    status [completed] or [failed] and at most 100 log entries; and it
    answers with a summary unless some iteration of the run raised something
    that is not an [Exception], or an exception whose [str] raises: any
    other failure during the run is not turned into an HTTP error. *)
Theorem http_run_graph_outcomes engine request uuid_hex :
  (graphs engine !! GraphRunRequest.graph_id request = None →
   main.run_graph engine request uuid_hex
     = Some (engine,
             HTTPException 400 ("Graph not found: "
                                  +:+ GraphRunRequest.graph_id request)))
  ∧ (∀ graph,
       graphs engine !! GraphRunRequest.graph_id request = Some graph →
       ∃ engine' r,
         main.run_graph engine request uuid_hex = Some (engine', r)
         ∧ (∀ resp, r = Response resp →
              (GraphRunResponse.status resp = completed
               ∨ GraphRunResponse.status resp = failed)
              ∧ (length (GraphRunResponse.execution_log resp) ≤ 100)%nat)
         ∧ ((∃ resp, r = Response resp)
            ∨ ∃ k run node i run' e,
                arrives engine graph 100 (GraphRunRequest.initial_state request)
                        uuid_hex k run node i
                ∧ loop_body engine graph 100 run node i = (run', Raises e)
                ∧ (is_exception e = false
                   ∨ ∃ e', str_of_exception e = Raises e'))).
Proof.
  split.
  - intros Hnone. unfold main.run_graph, run_graph, get_graph. by rewrite Hnone.
  - intros graph Hstored.
    destruct (run_graph_total engine graph (GraphRunRequest.graph_id request)
                (GraphRunRequest.initial_state request) 100 uuid_hex Hstored)
      as (engine' & r & Hrun).
    assert (main.run_graph engine request uuid_hex
            = Some (engine', match r with
                             | Returns result => Response result
                             | Raises e => handle_error 400 e
                             end)) as Hmain.
    { unfold main.run_graph. rewrite Hrun. by destruct r. }
    eexists _, _. split; [exact Hmain|]. split.
    + intros resp Hresp.
      destruct r as [result|e];
        [|by apply handle_error_not_response in Hresp].
      injection Hresp as ->.
      destruct (run_graph_log_bound engine graph _ _ _ _ Hstored _ _ Hrun)
        as [Hlen Hstatus].
      split; [done|]. lia.
    + destruct r as [result|e2]; [left; by eexists|right].
      apply run_graph_stored_inv with (graph := graph) in Hrun
        as (run' & o & Hloop & Hr); [|done].
      injection Hr as _ Hr. unfold finish in Hr.
      destruct o as [[]|e]; [done|].
      apply run_loop_raises_inv in Hloop as (k & run & node & i & Hk & Hb).
      exists k, run, node, i, run', e. split; [done|]. split; [done|].
      destruct (is_exception e); [|by left].
      right. destruct (str_of_exception e) as [message|e']; [done|by eexists].
Qed.

(** X19. [GET /graph/state/{run_id}] answers 404 exactly for the run ids the
    engine does not know, and otherwise returns the fields of the stored
    run. *)
Theorem http_get_run_state_outcomes engine run_id :
  (runs engine !! run_id = None →
   main.get_run_state engine run_id
     = HTTPException 404 ("Run not found: " +:+ run_id))
  ∧ (∀ run, runs engine !! run_id = Some run →
     main.get_run_state engine run_id
       = Response (RunStateResponse.mk (Run.id run) (Run.graph_id run)
                     (Run.status run) (Run.state run) (Run.execution_log run)
                     (Run.error run))).
Proof.
  unfold main.get_run_state, get_run_state_response, get_run.
  split; [by intros ->|]. by intros run ->.
Qed.


End Handlers.
(** * Worked runs for the further properties *)

Lemma execution_log_bounded_witness :
  ∃ self' resp,
    run_graph sample_engine "graph_loop" ∅ 3 "r" = Some (self', Returns resp)
    ∧ (length (GraphRunResponse.execution_log resp) ≤ 3)%nat.
Proof.
  assert (graphs sample_engine !! "graph_loop" = Some loop_graph) as Hstored by by_eval.
  assert (run_ends sample_engine "graph_loop" ∅ 3 "r" failed
            (Some "Max iterations (3) exceeded; possible infinite loop")
            ["check"; "check"; "check"] {["check" := VBool false]}) as Hends.
  { refine (run_fails_at sample_engine loop_graph "graph_loop" ∅ 3 "r" Hstored
              3%nat
              (Run.mk "run_r" "graph_loop" running {["check" := VBool false]}
                      ["check"; "check"; "check"] None) "check" 3%Z
              (Run.mk "run_r" "graph_loop" running {["check" := VBool false]}
                      ["check"; "check"; "check"] None)
              (EngineError "Max iterations (3) exceeded; possible infinite loop")
              "Max iterations (3) exceeded; possible infinite loop" _ _ _ _);
      by_eval. }
  destruct Hends as (self' & resp & r & Hrun & _).
  exists self', resp. split; [exact Hrun|].
  exact (execution_log_bounded sample_engine loop_graph "graph_loop" ∅ 3 "r"
           Hstored self' resp Hrun).
Defined.

Lemma execution_log_follows_edges_witness :
  ∃ self' resp,
    run_graph sample_engine "graph_flag" ∅ 100 "r" = Some (self', Returns resp)
    ∧ follows_edges flag_graph (GraphRunResponse.execution_log resp).
Proof.
  assert (graphs sample_engine !! "graph_flag" = Some flag_graph) as Hstored by by_eval.
  assert (run_ends sample_engine "graph_flag" ∅ 100 "r" completed None
            ["flag"; "B"] {["flag" := VBool true; "done" := VBool true]}) as Hends.
  { refine (run_completes_at sample_engine flag_graph "graph_flag" ∅ 100 "r"
              Hstored 2%nat
              (Run.mk "run_r" "graph_flag" running
                      {["flag" := VBool true; "done" := VBool true]}
                      ["flag"; "B"] None) 2%Z _); by_eval. }
  destruct Hends as (self' & resp & r & Hrun & _).
  exists self', resp. split; [exact Hrun|].
  exact (execution_log_follows_edges sample_engine flag_graph "graph_flag" ∅ 100
           "r" Hstored self' resp Hrun).
Defined.

Lemma logged_nodes_registered_witness :
  ∃ self' resp,
    run_graph more_engine "graph_ghost" ∅ 100 "r" = Some (self', Returns resp)
    ∧ ∃ log last_node,
        (∀ n, n ∈ log → is_Some (node_registry more_engine !! n))
        ∧ (GraphRunResponse.execution_log resp = log
           ∨ (GraphRunResponse.execution_log resp = log ++ [last_node]
              ∧ GraphRunResponse.status resp = failed)).
Proof.
  assert (graphs more_engine !! "graph_ghost" = Some ghost_graph) as Hstored by by_eval.
  assert (run_ends more_engine "graph_ghost" ∅ 100 "r" failed
            (Some "Node function not found in registry: ghost")
            ["A"; "ghost"] ∅) as Hends.
  { refine (run_fails_at more_engine ghost_graph "graph_ghost" ∅ 100 "r" Hstored
              1%nat (Run.mk "run_r" "graph_ghost" running ∅ ["A"] None) "ghost" 1%Z
              (Run.mk "run_r" "graph_ghost" running ∅ ["A"; "ghost"] None)
              (EngineError "Node function not found in registry: ghost")
              "Node function not found in registry: ghost" _ _ _ _); by_eval. }
  destruct Hends as (self' & resp & r & Hrun & _).
  exists self', resp. split; [exact Hrun|].
  exact (logged_nodes_registered more_engine ghost_graph "graph_ghost" ∅ 100
           "r" Hstored self' resp Hrun).
Defined.


Lemma run_then_get_run_state_witness :
  ∃ self' resp,
    run_graph sample_engine "graph_boom" ∅ 100 "r" = Some (self', Returns resp)
    ∧ ∃ st,
        get_run_state_response self' (GraphRunResponse.run_id resp) = Returns st
        ∧ RunStateResponse.status st = GraphRunResponse.status resp
        ∧ RunStateResponse.execution_log st = GraphRunResponse.execution_log resp.
Proof.
  assert (graphs sample_engine !! "graph_boom" = Some boom_graph) as Hstored by by_eval.
  assert (run_ends sample_engine "graph_boom" ∅ 100 "r" failed (Some "boom failed")
            ["A"; "boom"] {["seen" := VBool true]}) as Hends.
  { refine (run_fails_at sample_engine boom_graph "graph_boom" ∅ 100 "r" Hstored
              1%nat (Run.mk "run_r" "graph_boom" running ∅ ["A"] None) "boom" 1%Z
              (Run.mk "run_r" "graph_boom" running {["seen" := VBool true]}
                      ["A"; "boom"] None)
              (OtherException "boom failed") "boom failed" _ _ _ _); by_eval. }
  destruct Hends as (self' & resp & r & Hrun & _).
  exists self', resp. split; [exact Hrun|].
  destruct (run_then_get_run_state sample_engine boom_graph "graph_boom" ∅ 100 "r"
              Hstored self' resp Hrun)
    as (st & Hst & _ & _ & Hstatus & _ & Hlog & _).
  by exists st.
Defined.


Lemma unregistered_node_fails_run_witness :
  run_ends more_engine "graph_ghost" ∅ 100 "r" failed
    (Some "Node function not found in registry: ghost") ["A"; "ghost"] ∅.
Proof.
  refine (unregistered_node_fails_run more_engine ghost_graph "graph_ghost" ∅ 100
            "r" _ 1%nat (Run.mk "run_r" "graph_ghost" running ∅ ["A"] None)
            "ghost" 1%Z _ _ _); by_eval.
Defined.

Lemma flag_graph_edges_same_linear n :
  Graph.conditional_edges flag_graph !! n = None →
  dict_get (Graph.edges flag_graph) n = dict_get (Graph.edges flag_graph_edges) n.
Proof.
  intros Hn. unfold dict_get. cbn.
  destruct (decide (n = "flag")) as [->|Hflag]; [vm_compute in Hn; discriminate|].
  destruct (decide (n = "B")) as [->|HB]; [by_eval|].
  rewrite lookup_empty, lookup_insert_ne by done.
  by rewrite lookup_singleton_ne.
Defined.

Lemma conditional_edges_override_linear_witness :
  snd <$> run_graph (mkEngine (node_registry sample_engine)
                              (<["graph_flag" := flag_graph_edges]>
                                 (graphs sample_engine))
                              (runs sample_engine))
                    "graph_flag" ∅ 100 "r"
  = snd <$> run_graph sample_engine "graph_flag" ∅ 100 "r".
Proof.
  refine (conditional_edges_override_linear sample_engine flag_graph
            flag_graph_edges "graph_flag" ∅ 100 "r" _ _ _ _
            flag_graph_edges_same_linear); by_eval.
Defined.

Lemma z_not_listed : "Z" ∉ ["A"; "B"].
Proof.
  intros H. apply elem_of_cons in H as [H|H]; [discriminate|].
  apply elem_of_cons in H as [H|H]; [discriminate|]. by apply elem_of_nil in H.
Defined.

Lemma create_graph_succeeds_iff_witness :
  ∃ self' g,
    create_graph repr_plain (init sample_registry) ab_request "0" = (self', Returns g).
Proof.
  refine (proj2 (create_graph_succeeds_iff repr_plain (init sample_registry)
                   ab_request "0") (conj ab_nodes_registered _)).
  by left.
Defined.

Lemma create_graph_entry_not_listed_witness :
  create_graph repr_plain (init sample_registry) bad_entry_request "0"
    = (init sample_registry,
       Raises (EngineError "entry_node 'Z' is not listed in nodes")).
Proof.
  exact (create_graph_entry_not_listed repr_plain (init sample_registry)
           bad_entry_request "0" ab_nodes_registered z_not_listed).
Defined.

Lemma create_graph_frame_witness :
  match create_graph repr_plain recorded_engine ab_request "7" with
  | (self', Returns g) =>
      Graph.id g = "graph_7"
      ∧ runs self' = runs recorded_engine
      ∧ get_graph self' "graph_ab" = Returns ab_graph
  | _ => False
  end.
Proof.
  destruct (create_graph repr_plain recorded_engine ab_request "7")
    as [self' [g|e]] eqn:Hc; [|vm_compute in Hc; discriminate].
  destruct (create_graph_frame repr_plain recorded_engine ab_request "7" self' g Hc)
    as (Hid & _ & Hruns & Hother).
  split; [done|]. split; [done|].
  rewrite Hother; [by_eval|]. rewrite Hid. discriminate.
Defined.

Lemma register_then_get_node_witness :
  ∃ regs',
    register "extra" idle_node sample_registries = (regs', Done idle_node)
    ∧ get_node regs' "extra" = Done idle_node
    ∧ (∀ other, other ≠ "extra" →
                get_node regs' other = get_node sample_registries other)
    ∧ TOOL_REGISTRY regs' = TOOL_REGISTRY sample_registries.
Proof.
  refine (register_then_get_node "extra" idle_node sample_registries _); by_eval.
Defined.

Lemma register_duplicate_rejected_witness :
  register "A" idle_node sample_registries
    = (sample_registries, Fails (ValueError "Node 'A' is already registered"))
  ∧ get_node (register "A" idle_node sample_registries).1 "A" = Done identity_node.
Proof.
  refine (register_duplicate_rejected "A" idle_node identity_node
            sample_registries _); by_eval.
Defined.

Lemma register_tool_then_get_tool_witness :
  (∃ regs',
      register_tool "trim" 3%nat sample_registries = (regs', Done 3%nat)
      ∧ get_tool regs' "trim" = Done 3%nat
      ∧ (∀ other, other ≠ "trim" →
                  get_tool regs' other = get_tool sample_registries other)
      ∧ NODE_REGISTRY regs' = NODE_REGISTRY sample_registries)
  ∧ register_tool "count_words" 3%nat sample_registries
      = (sample_registries,
         Fails (ValueError "Tool 'count_words' is already registered")).
Proof.
  split.
  - refine (proj1 (register_tool_then_get_tool "trim" 3%nat sample_registries) _);
      by_eval.
  - refine (proj2 (register_tool_then_get_tool "count_words" 3%nat
                     sample_registries) 7%nat _); by_eval.
Defined.

Lemma register_all_distinct_witness :
  ∃ regs',
    register_all [("extra", idle_node); ("other", identity_node)] sample_registries
      = (regs', Done tt)
    ∧ get_node regs' "other" = Done identity_node
    ∧ get_node regs' "A" = Done identity_node.
Proof.
  destruct (register_all_distinct
              [("extra", idle_node); ("other", identity_node)] sample_registries)
    as (regs' & Hall & Hget & Hother & _).
  - apply (bool_decide_unpack _). by_eval.
  - intros name Hname.
    apply elem_of_cons in Hname as [->|Hname]; [by_eval|].
    apply elem_of_cons in Hname as [->|Hname]; [by_eval|].
    by apply elem_of_nil in Hname.
  - exists regs'. split; [done|]. split.
    + apply Hget. right. by left.
    + rewrite Hother; [by_eval|].
      intros H. apply elem_of_cons in H as [H|H]; [discriminate|].
      apply elem_of_cons in H as [H|H]; [discriminate|]. by apply elem_of_nil in H.
Defined.

Lemma other_decision_uses_str_witness :
  loop_body more_engine count_graph 100 (new_run count_graph ∅ "r") "count" 0
    = (Run.mk "run_r" "graph_count" running {["count" := VInt 12]} ["count"] None,
       Returns (Some "B", 1%Z)).
Proof.
  refine (other_decision_uses_str more_engine count_graph 100
            (new_run count_graph ∅ "r") "count" 0%Z (set_key "count" (VInt 12))
            {["count" := VInt 12]} count_map (VInt 12) _ _ _ _ _ _ _);
    first [by_eval | done].
Defined.

Lemma bad_request_invalid :
  ¬ ((∀ n, n ∈ GraphCreateRequest.nodes bad_request →
           is_Some (node_registry (init sample_registry) !! n))
     ∧ GraphCreateRequest.entry_node bad_request
         ∈ GraphCreateRequest.nodes bad_request).
Proof.
  intros [Hreg _]. destruct (Hreg "X") as [fn Hfn]; [right; by left|].
  vm_compute in Hfn. discriminate.
Defined.

Lemma http_create_graph_outcomes_witness :
  (∃ engine',
      main.create_graph repr_plain (init sample_registry) ab_request "0"
        = (engine', Response (GraphCreateResponse.mk "graph_0"))
      ∧ is_Some (graphs engine' !! "graph_0"))
  ∧ ∃ detail,
      main.create_graph repr_plain (init sample_registry) bad_request "0"
        = (init sample_registry, HTTPException 400 detail).
Proof.
  split.
  - refine (proj1 (http_create_graph_outcomes repr_plain (init sample_registry)
                     ab_request "0") (conj ab_nodes_registered _)).
    by left.
  - exact (proj2 (http_create_graph_outcomes repr_plain (init sample_registry)
                    bad_request "0") bad_request_invalid).
Defined.

Lemma http_run_graph_outcomes_witness :
  main.run_graph sample_engine (GraphRunRequest.mk "graph_none" ∅) "r"
    = Some (sample_engine, HTTPException 400 "Graph not found: graph_none")
  ∧ ∃ engine' r,
      main.run_graph halt_engine (GraphRunRequest.mk "graph_mute" ∅) "r"
        = Some (engine', r)
      ∧ (∀ resp, r = Response resp →
           (GraphRunResponse.status resp = completed
            ∨ GraphRunResponse.status resp = failed)
           ∧ (length (GraphRunResponse.execution_log resp) ≤ 100)%nat)
      ∧ ((∃ resp, r = Response resp)
         ∨ ∃ k run node i run' e,
             arrives halt_engine mute_graph 100 ∅ "r" k run node i
             ∧ loop_body halt_engine mute_graph 100 run node i = (run', Raises e)
             ∧ (is_exception e = false ∨ ∃ e', str_of_exception e = Raises e')).
Proof.
  split.
  - refine (proj1 (http_run_graph_outcomes sample_engine
                     (GraphRunRequest.mk "graph_none" ∅) "r") _); by_eval.
  - refine (proj2 (http_run_graph_outcomes halt_engine
                     (GraphRunRequest.mk "graph_mute" ∅) "r") mute_graph _).
    by_eval.
Defined.

Lemma http_get_run_state_outcomes_witness :
  main.get_run_state recorded_engine "run_2"
    = HTTPException 404 "Run not found: run_2"
  ∧ main.get_run_state recorded_engine "run_1"
    = Response (RunStateResponse.mk "run_1" "graph_ab" completed
                  {["done" := VBool true]} ["A"; "B"] None).
Proof.
  split.
  - refine (proj1 (http_get_run_state_outcomes recorded_engine "run_2") _); by_eval.
  - refine (proj2 (http_get_run_state_outcomes recorded_engine "run_1")
              recorded_run _); by_eval.
Defined.

